(** * Finance tracker: the categorization engine of [main.py]

    A shallow embedding of the data logic of [main.py] (the Streamlit
    widgets, tables and charts are left out):

    - [PyStr]: the Python string operations the code relies on
      ([str.lower], [str.strip], [in], [str.replace]);
    - [Categorizer]: [categorize_transactions], on rows all of whose
      cells are there;
    - [Feedback]: [save_categories] and [add_keyword_to_category], over
      the session state;
    - [Frames]: frames as [pd.read_csv] gives them, with missing and
      non-text cells, and [categorize_transactions] on them;
    - [Normalizer]: [load_transactions];
    - [Aggregator]: the totals computed in [main];
    - [SaveChanges]: the handler of the save button;
    - [PyStrFacts], [CategorizerFacts], [SessionFacts], [PipelineFacts],
      [AggregatorFacts]: further facts about these.

    Python strings are modelled by [string]; a character is a code point
    below 256.  A [dict] is an association list in insertion order.  The
    library calls whose result the code takes as it comes ([float],
    the date parser, the floating-point sums of pandas) are parameters. *)

From Stdlib Require Import List String Ascii Bool Arith ZArith QArith Lia.
From Stdlib Require Import Sorting.Sorted Sorting.Permutation.
From Stdlib Require Import Floats.SpecFloat.
Import ListNotations.

Close Scope Q_scope.
Open Scope string_scope.
Open Scope list_scope.
Open Scope nat_scope.

(* ================================================================== *)
(** ** Python string operations *)

Module PyStr.

(** [c.isspace()] for a code point below 256: TAB..CR, FS..US, SPACE,
    NEL (0x85) and NBSP (0xA0). *)
Definition isspace (c : ascii) : bool :=
  let n := nat_of_ascii c in
  ((9 <=? n) && (n <=? 13)) || ((28 <=? n) && (n <=? 32))
  || (n =? 133) || (n =? 160).

(** [c.lower()] for a code point below 256: A..Z, and the Latin-1 capitals
    0xC0..0xDE except the multiplication sign 0xD7, move up by 32. *)
Definition lower_char (c : ascii) : ascii :=
  let n := nat_of_ascii c in
  if ((65 <=? n) && (n <=? 90))
     || ((192 <=? n) && (n <=? 222) && negb (n =? 215))
  then ascii_of_nat (n + 32)
  else c.

Fixpoint lower (s : string) : string :=
  match s with
  | EmptyString => EmptyString
  | String c s' => String (lower_char c) (lower s')
  end.

Fixpoint lstrip (s : string) : string :=
  match s with
  | EmptyString => EmptyString
  | String c s' => if isspace c then lstrip s' else s
  end.

Fixpoint rstrip (s : string) : string :=
  match s with
  | EmptyString => EmptyString
  | String c s' =>
      match rstrip s' with
      | EmptyString => if isspace c then EmptyString else String c EmptyString
      | r => String c r
      end
  end.

(** [s.strip()] *)
Definition strip (s : string) : string := rstrip (lstrip s).

(** [needle in hay] on strings: substring search, every start position
    tried in turn. *)
Fixpoint contains (needle hay : string) : bool :=
  String.prefix needle hay
  || match hay with
     | EmptyString => false
     | String _ hay' => contains needle hay'
     end.

(** The truth value of a string: [bool(s)]. *)
Definition truthy (s : string) : bool :=
  match s with
  | EmptyString => false
  | String _ _ => true
  end.

(** [x in xs] for a list of strings. *)
Definition mem (x : string) (xs : list string) : bool :=
  existsb (String.eqb x) xs.

(** [str.replace] as line 47 calls it: every comma is removed. *)
Fixpoint remove_commas (s : string) : string :=
  match s with
  | EmptyString => EmptyString
  | String c s' =>
      if Ascii.eqb c "," then remove_commas s' else String c (remove_commas s')
  end.

(** What [contains] decides. *)
Definition Substring (needle hay : string) : Prop :=
  exists pre post, hay = (pre ++ needle ++ post)%string.

Lemma prefix_split (p s : string) :
  String.prefix p s = true <-> exists post, s = (p ++ post)%string.
Proof.
  revert s; induction p as [|c p IH]; intros s.
  - split; [intros _; now exists s | intros _; now destruct s].
  - destruct s as [|d s]; simpl.
    + split; [discriminate | intros [post H]; discriminate].
    + destruct (Ascii.ascii_dec c d) as [->|Hcd].
      * rewrite IH. split; intros [post H]; exists post.
        -- now rewrite H.
        -- now inversion H.
      * split; [discriminate | intros [post H]].
        inversion H; congruence.
Qed.

Lemma contains_nil (needle : string) :
  contains needle EmptyString = String.prefix needle EmptyString || false.
Proof. reflexivity. Qed.

Lemma contains_cons (needle : string) (c : ascii) (hay : string) :
  contains needle (String c hay)
  = String.prefix needle (String c hay) || contains needle hay.
Proof. reflexivity. Qed.

Lemma contains_Substring (needle hay : string) :
  contains needle hay = true <-> Substring needle hay.
Proof.
  induction hay as [|c hay IH]; [rewrite contains_nil|rewrite contains_cons].
  - rewrite orb_false_r, prefix_split. split.
    + intros [post H]. now exists EmptyString, post.
    + intros [pre [post H]].
      destruct pre; [now exists post | discriminate].
  - rewrite orb_true_iff, prefix_split, IH. split.
    + intros [[post H] | [pre [post H]]].
      * now exists EmptyString, post.
      * exists (String c pre), post. simpl. now rewrite H.
    + intros [pre [post H]]. destruct pre as [|d pre]; simpl in H.
      * left. now exists post.
      * right. inversion H. now exists pre, post.
Qed.

Lemma contains_empty (hay : string) : contains EmptyString hay = true.
Proof. destruct hay; reflexivity. Qed.

Lemma lower_char_space (c : ascii) :
  isspace c = true -> lower_char c = c.
Proof.
  unfold isspace, lower_char. intros H.
  destruct (nat_of_ascii c) as [|n] eqn:E; [discriminate|].
  repeat rewrite orb_true_iff in H. repeat rewrite andb_true_iff in H.
  rewrite ?Nat.leb_le, ?Nat.eqb_eq in H.
  match goal with |- (if ?b then _ else _) = _ => destruct b eqn:B end;
    [|reflexivity].
  rewrite orb_true_iff in B. repeat rewrite andb_true_iff in B.
  rewrite ?Nat.leb_le in B. lia.
Qed.

Lemma lstrip_spaces (s : string) :
  forallb isspace (list_ascii_of_string s) = true -> lstrip s = EmptyString.
Proof.
  induction s as [|c s IH]; simpl; [reflexivity|].
  rewrite andb_true_iff. intros [Hc Hs]. now rewrite Hc, IH.
Qed.

Lemma lower_spaces (s : string) :
  forallb isspace (list_ascii_of_string s) = true -> lower s = s.
Proof.
  induction s as [|c s IH]; simpl; [reflexivity|].
  rewrite andb_true_iff. intros [Hc Hs].
  now rewrite lower_char_space, IH.
Qed.

(** A keyword made of whitespace only (the empty keyword included)
    lower-cases and strips to the empty string. *)
Lemma strip_lower_spaces (s : string) :
  forallb isspace (list_ascii_of_string s) = true ->
  strip (lower s) = EmptyString.
Proof.
  intros H. unfold strip. rewrite (lower_spaces s H), (lstrip_spaces s H).
  reflexivity.
Qed.

Lemma mem_In (x : string) (xs : list string) : mem x xs = true <-> In x xs.
Proof.
  unfold mem. rewrite existsb_exists. split.
  - intros [y [Hin E]]. apply String.eqb_eq in E. now subst y.
  - intros H. exists x. split; [exact H | apply String.eqb_refl].
Qed.

Lemma truthy_nonempty (s : string) : truthy s = true <-> s <> EmptyString.
Proof. destruct s; simpl; split; congruence. Qed.

End PyStr.

(* ================================================================== *)
(** ** Binary64 floating point *)

(** [float]: an IEEE 754 binary64 value, as [astype(float)] produces. *)
Definition float : Type := spec_float.

Module F64.

Definition prec : Z := 53%Z.
Definition emax : Z := 1024%Z.

(** The binary64 nearest to [m * 2^e] (ties to even). *)
Definition of_scaled (m e : Z) : float := binary_normalize prec emax m e false.

Definition zero : float := S754_zero false.
Definition add (x y : float) : float := SFadd prec emax x y.
Definition div (x y : float) : float := SFdiv prec emax x y.

Definition is_nan (x : float) : bool :=
  match x with
  | S754_nan => true
  | _ => false
  end.

(** The real number a finite float denotes, as a rational. *)
Definition value (x : float) : Q :=
  match x with
  | S754_finite s m e =>
      let n := if s then Z.neg m else Z.pos m in
      match e with
      | Z0 => inject_Z n
      | Z.pos p => inject_Z (n * Z.pow_pos 2 p)
      | Z.neg p => Qmake n (Pos.pow 2 p)
      end
  | _ => 0%Q
  end.

(** The binary64 nearest to the decimal [n / 10^k] (for [n] below [2^53]
    and [k] at most 22, where both operands are exact): what [float()]
    returns on such a literal. *)
Definition of_decimal (n : Z) (k : nat) : float :=
  div (of_scaled n 0) (of_scaled (10 ^ Z.of_nat k) 0).

End F64.

(* ================================================================== *)
(** ** Data model *)

(** [st.session_state.categories]: category name -> keyword list, in
    insertion order ([dict.items()] iterates in that order). *)
Definition Ruleset : Type := list (string * list string).

(** One row of the data frame once [load_transactions] has typed its
    columns.  [Index] is the row label [df.iterrows()] yields and
    [df.at] addresses; [Date] is the timestamp [pd.to_datetime] returns
    (nanoseconds since the epoch); [Status] is read only when the file
    has such a column.  [Category] is the column line 25 creates: it is
    overwritten there whatever it held before. *)
Record Transaction : Type := mkTransaction {
  Index : nat;
  Date : Z;
  Details : string;
  Amount : float;
  DebitCredit : string;
  Status : string;
  Category : string
}.

Definition DataFrame : Type := list Transaction.

(** The row with its [Category] cell replaced. *)
Definition set_Category (category : string) (row : Transaction) : Transaction :=
  {| Index := Index row; Date := Date row; Details := Details row;
     Amount := Amount row; DebitCredit := DebitCredit row;
     Status := Status row; Category := category |}.

(* ================================================================== *)
(** ** The categorizer: [categorize_transactions] (lines 24-39) *)

Module Categorizer.
Import PyStr.

(** Line 31: [[keyword.lower().strip() for keyword in keywords]]. *)
Definition lowered (keywords : list string) : list string :=
  map (fun keyword => strip (lower keyword)) keywords.

(** Lines 34-36 for one row:
    [any(keyword in details for keyword in lowered_keywords)]. *)
Definition row_matches (lowered_keywords : list string) (row : Transaction) : bool :=
  let details := strip (lower (Details row)) in
  existsb (fun keyword => contains keyword details) lowered_keywords.

(** Line 37, [df.at[idx, "Category"] = category]: the write goes to the
    label [idx]. *)
Definition set_at (idx : nat) (category : string) (df : DataFrame) : DataFrame :=
  map (fun row =>
         if Index row =? idx then set_Category category row else row) df.

(** Lines 33-37: the inner loop.  [df.iterrows()] yields the rows with
    their labels; the loop writes to the frame as it goes and reads
    nothing but [Details], which no write touches. *)
Definition assign_category (category : string) (lowered_keywords : list string)
    (df : DataFrame) : DataFrame :=
  fold_left
    (fun frame row =>
       if row_matches lowered_keywords row
       then set_at (Index row) category frame
       else frame)
    df df.

(** [not keywords] for a list. *)
Definition is_empty (keywords : list string) : bool :=
  match keywords with
  | [] => true
  | _ :: _ => false
  end.

(** Lines 27-37: the outer loop over [categories.items()]. *)
Fixpoint categorize_loop (items : Ruleset) (df : DataFrame) : DataFrame :=
  match items with
  | [] => df
  | (category, keywords) :: rest =>
      if (category =? "Uncategorized")%string || is_empty keywords
      then categorize_loop rest df
      else categorize_loop rest (assign_category category (lowered keywords) df)
  end.

Definition categorize_transactions (categories : Ruleset) (df : DataFrame)
    : DataFrame :=
  let df := map (set_Category "Uncategorized") df in
  categorize_loop categories df.

(** *** Reading the loops row by row *)

(** Some row of the frame with the label of [row] matches: the inner
    loop writes to [row]. *)
Definition label_matches (lowered_keywords : list string) (df : DataFrame)
    (row : Transaction) : bool :=
  existsb (fun row' => (Index row' =? Index row) && row_matches lowered_keywords row')
          df.

(** The guard of line 28 together with the test of line 36: the
    assignment of line 37 reaches [row] in the turn of [entry]. *)
Definition fires (df : DataFrame) (row : Transaction)
    (entry : string * list string) : bool :=
  negb ((fst entry =? "Uncategorized")%string || is_empty (snd entry))
  && label_matches (lowered (snd entry)) df row.

(** The condition on the transaction itself, as a proposition. *)
Definition Hits (row : Transaction) (category : string) (keywords : list string)
    : Prop :=
  category <> "Uncategorized" /\ keywords <> [] /\
  exists keyword, In keyword keywords /\
    Substring (strip (lower keyword)) (strip (lower (Details row))).

(** The categories assigned to [row] during the run, in order. *)
Definition assigned (df : DataFrame) (categories : Ruleset) (row : Transaction)
    : list string :=
  map fst (filter (fires df row) categories).

(** What the loops do to a single row of the frame [df]. *)
Definition resolve (df : DataFrame) (items : Ruleset) (row : Transaction)
    : Transaction :=
  fold_left
    (fun r entry => if fires df r entry then set_Category (fst entry) r else r)
    items row.

(** What the matching reads of a frame: labels and details. *)
Definition shape (df : DataFrame) : list (nat * string) :=
  map (fun row => (Index row, Details row)) df.

Lemma fold_set_at (category : string) (m : Transaction -> bool)
    (rows : list Transaction) :
  forall frame,
  fold_left (fun frame row => if m row then set_at (Index row) category frame
                              else frame) rows frame
  = map (fun r =>
           if existsb (fun row' => (Index row' =? Index r) && m row') rows
           then set_Category category r else r) frame.
Proof.
  induction rows as [|row rows IH]; intros frame; simpl.
  - symmetry. apply map_id.
  - rewrite IH. destruct (m row) eqn:M.
    + unfold set_at. rewrite map_map. apply map_ext. intros r.
      rewrite (Nat.eqb_sym (Index row) (Index r)).
      destruct (Index r =? Index row) eqn:E; simpl.
      * now destruct (existsb _ rows).
      * reflexivity.
    + apply map_ext. intros r. now rewrite andb_false_r.
Qed.

Lemma assign_category_rows (category : string) (lowered_keywords : list string)
    (df : DataFrame) :
  assign_category category lowered_keywords df
  = map (fun row =>
           if label_matches lowered_keywords df row
           then set_Category category row else row) df.
Proof. unfold assign_category. apply fold_set_at. Qed.

Lemma label_matches_shape (lowered_keywords : list string) (df df' : DataFrame)
    (row : Transaction) :
  shape df = shape df' ->
  label_matches lowered_keywords df row = label_matches lowered_keywords df' row.
Proof.
  unfold label_matches, shape. revert df'.
  induction df as [|r df IH]; intros [|r' df'] H; simpl in *;
    try discriminate; [reflexivity|].
  inversion H as [[Hi Hd Hs]]. rewrite (IH df' Hs), Hi.
  unfold row_matches. now rewrite Hd.
Qed.

Lemma fires_shape (df df' : DataFrame) (row : Transaction)
    (entry : string * list string) :
  shape df = shape df' -> fires df row entry = fires df' row entry.
Proof.
  intros H. unfold fires. now rewrite (label_matches_shape _ df df' row H).
Qed.

Lemma shape_recategorized (f : Transaction -> bool) (g : Transaction -> string)
    (df : DataFrame) :
  shape (map (fun row => if f row then set_Category (g row) row else row) df)
  = shape df.
Proof.
  unfold shape. rewrite map_map. apply map_ext. intros row.
  now destruct (f row).
Qed.

Lemma shape_set_Category (g : Transaction -> string) (df : DataFrame) :
  shape (map (fun row => set_Category (g row) row) df) = shape df.
Proof. unfold shape. rewrite map_map. now apply map_ext. Qed.

Lemma fires_set_Category (df : DataFrame) (c : string) (row : Transaction)
    (entry : string * list string) :
  fires df (set_Category c row) entry = fires df row entry.
Proof. reflexivity. Qed.

Lemma resolve_cons (df : DataFrame) (entry : string * list string)
    (rest : Ruleset) (row : Transaction) :
  resolve df (entry :: rest) row
  = resolve df rest
      (if fires df row entry then set_Category (fst entry) row else row).
Proof. reflexivity. Qed.

Lemma resolve_shape (df df' : DataFrame) (items : Ruleset) (row : Transaction) :
  shape df = shape df' -> resolve df items row = resolve df' items row.
Proof.
  intros H. revert row. induction items as [|entry rest IH]; intros row;
    [reflexivity|].
  now rewrite !resolve_cons, (fires_shape df df' row entry H), IH.
Qed.

Lemma categorize_loop_resolve (items : Ruleset) (df : DataFrame) :
  categorize_loop items df = map (resolve df items) df.
Proof.
  revert df. induction items as [|[category keywords] rest IH]; intros df.
  - simpl. now rewrite map_id.
  - cbn [categorize_loop].
    destruct ((category =? "Uncategorized")%string || is_empty keywords) eqn:G.
    + rewrite IH. apply map_ext. intros row. rewrite resolve_cons.
      unfold fires. cbn [fst snd]. now rewrite G.
    + rewrite IH, assign_category_rows, map_map.
      apply map_ext. intros row.
      rewrite (resolve_shape _ df rest _
                 (shape_recategorized _ (fun _ => category) df)).
      rewrite resolve_cons. unfold fires. cbn [fst snd]. now rewrite G.
Qed.

Lemma last_cons {A : Type} (x : A) (l : list A) (d : A) :
  last (x :: l) d = last l x.
Proof.
  revert x d. induction l as [|y l IH]; intros x d; [reflexivity|].
  change (last (x :: y :: l) d) with (last (y :: l) d).
  now rewrite !IH.
Qed.

Lemma last_In {A : Type} (l : list A) (d : A) : l <> [] -> In (last l d) l.
Proof.
  induction l as [|x l IH]; intros H; [congruence|].
  destruct l as [|y l]; [now left|].
  right. apply IH. discriminate.
Qed.

Lemma resolve_Category (df : DataFrame) (items : Ruleset) (row : Transaction) :
  Category (resolve df items row) = last (assigned df items row) (Category row).
Proof.
  unfold assigned. revert row.
  induction items as [|entry rest IH]; intros row; [reflexivity|].
  rewrite resolve_cons, IH. simpl filter.
  destruct (fires df row entry) eqn:F; [|reflexivity].
  simpl map. rewrite last_cons.
  now rewrite (filter_ext _ (fires df row)
                 (fun e => fires_set_Category df _ row e)).
Qed.

Lemma resolve_set_Category (df : DataFrame) (items : Ruleset)
    (row : Transaction) :
  exists c, resolve df items row = set_Category c row.
Proof.
  revert row. induction items as [|entry rest IH]; intros row.
  - exists (Category row). now destruct row.
  - rewrite resolve_cons. destruct (fires df row entry).
    + destruct (IH (set_Category (fst entry) row)) as [c ->]. now exists c.
    + apply IH.
Qed.

Lemma assigned_set_Category (df : DataFrame) (rs : Ruleset) (c : string)
    (row : Transaction) :
  assigned df rs (set_Category c row) = assigned df rs row.
Proof. reflexivity. Qed.

Lemma assigned_shape (df df' : DataFrame) (rs : Ruleset) (row : Transaction) :
  shape df = shape df' -> assigned df rs row = assigned df' rs row.
Proof.
  intros H. unfold assigned.
  now rewrite (filter_ext _ _ (fun e => fires_shape df df' row e H)).
Qed.

(** The outcome of the run for every row: only [Category] changes, and it
    ends as the last category assigned, or the default. *)
Lemma categorize_rows (categories : Ruleset) (df : DataFrame) :
  categorize_transactions categories df
  = map (fun row =>
           set_Category (last (assigned df categories row) "Uncategorized") row)
        df.
Proof.
  unfold categorize_transactions. rewrite categorize_loop_resolve, map_map.
  apply map_ext. intros row.
  rewrite (resolve_shape _ df categories _
             (shape_set_Category (fun _ => "Uncategorized") df)).
  destruct (resolve_set_Category df categories
              (set_Category "Uncategorized" row)) as [c E].
  pose proof (resolve_Category df categories
                (set_Category "Uncategorized" row)) as H.
  rewrite E in H. simpl in H. rewrite E. now subst c.
Qed.

(** *** Frames with distinct labels

    [read_csv] numbers the lines of the file, so the frames the program
    categorizes have distinct labels: a write of line 37 then reaches the
    row at hand and no other. *)

Lemma label_unique (df : DataFrame) (row row' : Transaction) :
  NoDup (map Index df) -> In row df -> In row' df ->
  Index row' = Index row -> row' = row.
Proof.
  induction df as [|r df IH]; simpl; intros Hnd Hr Hr' E; [destruct Hr|].
  inversion Hnd as [|? ? Hnotin Hnd']; subst.
  destruct Hr as [->|Hr], Hr' as [->|Hr'].
  - reflexivity.
  - exfalso. apply Hnotin. rewrite <- E. now apply in_map.
  - exfalso. apply Hnotin. rewrite E. now apply in_map.
  - now apply IH.
Qed.

Lemma label_matches_own (lowered_keywords : list string) (df : DataFrame)
    (row : Transaction) :
  NoDup (map Index df) -> In row df ->
  label_matches lowered_keywords df row = row_matches lowered_keywords row.
Proof.
  intros Hnd Hin. unfold label_matches.
  destruct (row_matches lowered_keywords row) eqn:M.
  - apply existsb_exists. exists row. split; [exact Hin|].
    now rewrite Nat.eqb_refl, M.
  - destruct (existsb _ df) eqn:E; [|reflexivity].
    apply existsb_exists in E. destruct E as [row' [Hin' H]].
    apply andb_true_iff in H. destruct H as [Hi Hm].
    apply Nat.eqb_eq in Hi.
    rewrite (label_unique df row row' Hnd Hin Hin' Hi) in Hm. congruence.
Qed.

Lemma row_matches_Hits (row : Transaction) (category : string)
    (keywords : list string) :
  negb ((category =? "Uncategorized")%string || is_empty keywords)
  && row_matches (lowered keywords) row = true
  <-> Hits row category keywords.
Proof.
  unfold Hits, row_matches, lowered.
  rewrite andb_true_iff, negb_true_iff, orb_false_iff, String.eqb_neq.
  rewrite existsb_exists. split.
  - intros [[Hc Hk] [k [Hin Hsub]]]. split; [exact Hc|]. split.
    + now destruct keywords.
    + apply in_map_iff in Hin. destruct Hin as [k0 [<- Hin]].
      exists k0. split; [exact Hin|]. now apply contains_Substring.
  - intros [Hc [Hk [k [Hin Hsub]]]]. split.
    + split; [exact Hc|]. now destruct keywords.
    + exists (strip (lower k)). split.
      * exact (in_map (fun keyword => strip (lower keyword)) _ _ Hin).
      * now apply contains_Substring.
Qed.

Lemma fires_Hits (df : DataFrame) (row : Transaction) (category : string)
    (keywords : list string) :
  NoDup (map Index df) -> In row df ->
  (fires df row (category, keywords) = true <-> Hits row category keywords).
Proof.
  intros Hnd Hin. unfold fires. cbn [fst snd].
  rewrite (label_matches_own _ df row Hnd Hin). apply row_matches_Hits.
Qed.

(** A transaction that satisfies the condition is written to, whatever
    the labels of the frame. *)
Lemma Hits_fires (df : DataFrame) (row : Transaction) (category : string)
    (keywords : list string) :
  In row df -> Hits row category keywords ->
  fires df row (category, keywords) = true.
Proof.
  intros Hin H. apply row_matches_Hits in H.
  apply andb_true_iff in H. destruct H as [G M].
  unfold fires. cbn [fst snd]. rewrite G. simpl.
  apply existsb_exists. exists row. split; [exact Hin|].
  now rewrite Nat.eqb_refl, M.
Qed.

Lemma fires_not_default (df : DataFrame) (row : Transaction)
    (entry : string * list string) :
  fires df row entry = true -> fst entry <> "Uncategorized".
Proof.
  unfold fires. rewrite andb_true_iff, negb_true_iff, orb_false_iff.
  intros [[H _] _]. now apply String.eqb_neq.
Qed.

Lemma assigned_app (df : DataFrame) (rs1 rs2 : Ruleset) (row : Transaction) :
  assigned df (rs1 ++ rs2) row = assigned df rs1 row ++ assigned df rs2 row.
Proof. unfold assigned. now rewrite filter_app, map_app. Qed.

Lemma assigned_none (df : DataFrame) (rs : Ruleset) (row : Transaction) :
  NoDup (map Index df) -> In row df ->
  (forall category keywords, In (category, keywords) rs ->
     ~ Hits row category keywords) ->
  assigned df rs row = [].
Proof.
  intros Hnd Hin. unfold assigned.
  induction rs as [|[c k] rs IH]; intros H; [reflexivity|].
  simpl. destruct (fires df row (c, k)) eqn:F.
  - exfalso. apply (H c k); [now left | now apply (fires_Hits df)].
  - apply IH. intros c' k' Hin'. apply H. now right.
Qed.

Lemma assigned_In (df : DataFrame) (rs : Ruleset) (row : Transaction)
    (category : string) :
  NoDup (map Index df) -> In row df ->
  (In category (assigned df rs row) <->
   exists keywords, In (category, keywords) rs /\ Hits row category keywords).
Proof.
  intros Hnd Hrow. unfold assigned. rewrite in_map_iff. split.
  - intros [[c k] [E H]]. simpl in E. subst c.
    apply filter_In in H. destruct H as [Hin F].
    exists k. split; [exact Hin | now apply (fires_Hits df)].
  - intros [k [Hin H]]. exists (category, k). split; [reflexivity|].
    apply filter_In. split; [exact Hin | now apply (fires_Hits df)].
Qed.

Lemma assigned_not_default (df : DataFrame) (rs : Ruleset) (row : Transaction) :
  assigned df rs row <> [] ->
  last (assigned df rs row) "Uncategorized" <> "Uncategorized".
Proof.
  intros Hne.
  pose proof (last_In (assigned df rs row) "Uncategorized" Hne) as Hl.
  unfold assigned in Hl at 2. apply in_map_iff in Hl.
  destruct Hl as [entry [E Hin]]. apply filter_In in Hin.
  rewrite <- E. apply (fires_not_default df row entry), Hin.
Qed.

Lemma categorize_nth (categories : Ruleset) (df : DataFrame) (i : nat)
    (row : Transaction) :
  nth_error df i = Some row ->
  nth_error (categorize_transactions categories df) i
  = Some (set_Category (last (assigned df categories row) "Uncategorized") row).
Proof.
  intros H. rewrite categorize_rows, nth_error_map, H. reflexivity.
Qed.

Lemma categorize_In (categories : Ruleset) (df : DataFrame) (out : Transaction) :
  In out (categorize_transactions categories df) ->
  exists row, In row df /\
    out = set_Category (last (assigned df categories row) "Uncategorized") row.
Proof.
  rewrite categorize_rows, in_map_iff. intros [row [E H]]. now exists row.
Qed.

Lemma resolve_app (df : DataFrame) (rs1 rs2 : Ruleset) (row : Transaction) :
  resolve df (rs1 ++ rs2) row = resolve df rs2 (resolve df rs1 row).
Proof. unfold resolve. apply fold_left_app. Qed.

(** The state of a row after the turn of one more entry. *)
Lemma resolve_turn (df : DataFrame) (rs1 : Ruleset) (category : string)
    (keywords : list string) (row : Transaction) :
  resolve df (rs1 ++ [(category, keywords)]) row
  = if fires df row (category, keywords)
    then set_Category category row
    else resolve df rs1 row.
Proof.
  rewrite resolve_app. destruct (resolve_set_Category df rs1 row) as [c E].
  rewrite E at 1 2. unfold resolve at 1. simpl.
  rewrite fires_set_Category. now destruct (fires df row (category, keywords)).
Qed.

(** *** Sample data *)

Definition sample_row (index : nat) (details : string) : Transaction :=
  {| Index := index; Date := 0%Z; Details := details;
     Amount := F64.of_decimal 1050 2; DebitCredit := "Debit";
     Status := "SETTLED"; Category := EmptyString |}.

Lemma final_category_hit (df : DataFrame) (categories : Ruleset)
    (row : Transaction) :
  NoDup (map Index df) -> In row df ->
  last (assigned df categories row) "Uncategorized" <> "Uncategorized" ->
  exists keywords,
    In (last (assigned df categories row) "Uncategorized", keywords) categories /\
    Hits row (last (assigned df categories row) "Uncategorized") keywords.
Proof.
  intros Hnd Hin H. apply (assigned_In df); [exact Hnd | exact Hin|].
  apply last_In. intros E. rewrite E in H. now apply H.
Qed.

Lemma hit_leaves_default (df : DataFrame) (categories : Ruleset)
    (row : Transaction) (category : string) (keywords : list string) :
  In row df ->
  In (category, keywords) categories -> Hits row category keywords ->
  last (assigned df categories row) "Uncategorized" <> "Uncategorized".
Proof.
  intros Hrow Hin Hhit. apply assigned_not_default. intros E.
  assert (In category (assigned df categories row)) as H.
  { unfold assigned. apply in_map_iff. exists (category, keywords).
    split; [reflexivity|]. apply filter_In. split; [exact Hin|].
    now apply Hits_fires. }
  rewrite E in H. destruct H.
Qed.

(** C1. Last match wins: when a transaction is hit by the entry
    [(category, keywords)] of the ruleset and by no entry after it in
    iteration order, the categorizer leaves it with [category], whatever
    entries before it hit the transaction as well. *)
Theorem last_match_wins (rs1 : Ruleset) (category : string)
    (keywords : list string) (rs2 : Ruleset) (df : DataFrame) (i : nat)
    (row : Transaction) :
  NoDup (map Index df) ->
  nth_error df i = Some row ->
  Hits row category keywords ->
  (forall c k, In (c, k) rs2 -> ~ Hits row c k) ->
  nth_error (categorize_transactions (rs1 ++ (category, keywords) :: rs2) df) i
  = Some (set_Category category row).
Proof.
  intros Hnd Hrow Hhit Hlater. rewrite (categorize_nth _ _ _ _ Hrow).
  pose proof (nth_error_In _ _ Hrow) as Hin.
  do 2 f_equal.
  change ((category, keywords) :: rs2) with ([(category, keywords)] ++ rs2).
  rewrite !assigned_app, (assigned_none df rs2 row Hnd Hin Hlater), app_nil_r.
  unfold assigned at 2. simpl.
  rewrite (Hits_fires df row category keywords Hin Hhit). simpl.
  apply last_last.
Qed.

(** The scenario of the specification: "shop" under A and under B,
    B declared after A. *)
Lemma last_match_wins_witness :
  nth_error
    (categorize_transactions ([("A", ["shop"])] ++ ("B", ["shop"]) :: [])
       [sample_row 0 "Corner shop"]) 0
  = Some (set_Category "B" (sample_row 0 "Corner shop")).
Proof.
  apply (last_match_wins [("A", ["shop"])] "B" ["shop"] []
           [sample_row 0 "Corner shop"] 0 (sample_row 0 "Corner shop")).
  - repeat constructor. intros [].
  - reflexivity.
  - apply row_matches_Hits. vm_compute. reflexivity.
  - intros c k H. destruct H.
Defined.

(** C2. Categorization is idempotent: a second run over the output of a
    first run, with the same ruleset, returns that output unchanged. *)
Theorem categorize_idempotent (categories : Ruleset) (df : DataFrame) :
  categorize_transactions categories (categorize_transactions categories df)
  = categorize_transactions categories df.
Proof.
  rewrite (categorize_rows categories (categorize_transactions categories df)).
  rewrite (categorize_rows categories df), map_map.
  apply map_ext. intros row. rewrite assigned_set_Category.
  now rewrite (assigned_shape _ df categories row
                 (shape_set_Category
                    (fun r => last (assigned df categories r) "Uncategorized")
                    df)).
Qed.

(** C3. The match condition.  In the turn of an entry [(category,
    keywords)] of the ruleset the categorizer assigns [category] to a
    transaction if and only if [category] is not "Uncategorized",
    [keywords] is not empty and some keyword, lower-cased and stripped,
    is a substring of the lower-cased, stripped details; otherwise the
    turn leaves the transaction as it was.  At the end only the category
    of the transaction has changed; it is a non-default category only if
    that category satisfies the condition, and it is "Uncategorized"
    exactly when no entry satisfies it.  A category all of whose keyword
    lists are empty receives no transaction, and "uber" matches
    "UBER EATS DUBAI". *)
Theorem categorize_match_iff (categories : Ruleset) (df : DataFrame) (i : nat)
    (row : Transaction) :
  NoDup (map Index df) ->
  nth_error df i = Some row ->
  (forall rs1 category keywords rs2,
     categories = rs1 ++ (category, keywords) :: rs2 ->
     let df0 := map (set_Category "Uncategorized") df in
     (Hits row category keywords ->
        nth_error (categorize_loop (rs1 ++ [(category, keywords)]) df0) i
        = Some (set_Category category row)) /\
     (~ Hits row category keywords ->
        nth_error (categorize_loop (rs1 ++ [(category, keywords)]) df0) i
        = nth_error (categorize_loop rs1 df0) i)) /\
  (exists out,
     nth_error (categorize_transactions categories df) i = Some out /\
     out = set_Category (Category out) row /\
     (Category out <> "Uncategorized" ->
        exists keywords, In (Category out, keywords) categories /\
                         Hits row (Category out) keywords) /\
     ((exists category keywords,
         In (category, keywords) categories /\ Hits row category keywords)
      <-> Category out <> "Uncategorized") /\
     (forall category, category <> "Uncategorized" ->
        (forall keywords, In (category, keywords) categories -> keywords = []) ->
        Category out <> category)) /\
  (forall category, category <> "Uncategorized" ->
     Details row = "UBER EATS DUBAI" -> Hits row category ["uber"]).
Proof.
  intros Hnd Hrow. pose proof (nth_error_In _ _ Hrow) as Hin.
  split; [|split].
  - intros rs1 category keywords rs2 _ df0.
    assert (H0 : nth_error df0 i = Some (set_Category "Uncategorized" row))
      by (unfold df0; now rewrite nth_error_map, Hrow).
    assert (Hs : shape df0 = shape df)
      by apply (shape_set_Category (fun _ => "Uncategorized")).
    rewrite !categorize_loop_resolve, !nth_error_map, H0. simpl option_map.
    rewrite resolve_turn, fires_set_Category, (fires_shape df0 df _ _ Hs).
    split; intros H.
    + apply (fires_Hits df row _ _ Hnd Hin) in H. now rewrite H.
    + destruct (fires df row (category, keywords)) eqn:F; [|reflexivity].
      exfalso. apply H. now apply (fires_Hits df row _ _ Hnd Hin).
  - exists (set_Category (last (assigned df categories row) "Uncategorized") row).
    split; [now apply categorize_nth|]. simpl Category.
    split; [reflexivity|].
    split; [now apply final_category_hit|]. split.
    + split.
      * intros [category [keywords [Hc Hhit]]].
        now apply (hit_leaves_default df categories row category keywords).
      * intros H.
        destruct (final_category_hit df categories row Hnd Hin H) as [k Hk].
        now exists (last (assigned df categories row) "Uncategorized"), k.
    + intros category Hc Hempty E.
      rewrite <- E in Hc.
      destruct (final_category_hit df categories row Hnd Hin Hc)
        as [k [Hk [_ [Hne _]]]].
      rewrite E in Hk. now apply Hne, Hempty.
  - intros category Hc Hd. apply row_matches_Hits. unfold row_matches.
    rewrite Hd. simpl. apply String.eqb_neq in Hc. now rewrite Hc.
Qed.

(** A transport rule and a category without keywords, on one statement
    line. *)
Lemma categorize_match_iff_witness :
  exists out,
    nth_error
      (categorize_transactions [("Transport", ["uber"]); ("Food", [])]
         [sample_row 0 "UBER EATS DUBAI"]) 0 = Some out /\
    Category out = "Transport".
Proof.
  assert (NoDup (map Index [sample_row 0 "UBER EATS DUBAI"])) as Hnd
    by (repeat constructor; intros []).
  destruct (categorize_match_iff [("Transport", ["uber"]); ("Food", [])]
              [sample_row 0 "UBER EATS DUBAI"] 0
              (sample_row 0 "UBER EATS DUBAI") Hnd eq_refl)
    as [_ [[out [Hout [_ _]]] _]].
  exists out. split; [exact Hout|].
  vm_compute in Hout. now inversion Hout.
Defined.

(** C10. A keyword that consists of whitespace only (or is empty), in the
    list of a category other than "Uncategorized", lower-cases and strips
    to the empty string, which every details field contains: with such an
    entry in the ruleset no transaction is left "Uncategorized". *)
Theorem blank_keyword_matches_all (categories : Ruleset) (category : string)
    (keywords : list string) (keyword : string) (df : DataFrame)
    (out : Transaction) :
  In (category, keywords) categories ->
  category <> "Uncategorized" ->
  In keyword keywords ->
  forallb isspace (list_ascii_of_string keyword) = true ->
  In out (categorize_transactions categories df) ->
  strip (lower keyword) = EmptyString /\
  (forall details, contains (strip (lower keyword)) details = true) /\
  Category out <> "Uncategorized".
Proof.
  intros Hin Hc Hk Hsp Hout.
  pose proof (strip_lower_spaces keyword Hsp) as E.
  split; [exact E|]. split; [intros d; rewrite E; apply contains_empty|].
  apply categorize_In in Hout. destruct Hout as [row [Hrow ->]]. simpl.
  apply (hit_leaves_default df categories row category keywords Hrow Hin).
  split; [exact Hc|]. split.
  - intros E'. rewrite E' in Hk. destruct Hk.
  - exists keyword. split; [exact Hk|]. rewrite E.
    apply contains_Substring, contains_empty.
Qed.

Lemma blank_keyword_matches_all_witness :
  In (set_Category "Misc" (sample_row 0 "Salik toll"))
     (categorize_transactions [("Food", ["starbucks"]); ("Misc", ["  "])]
        [sample_row 0 "Salik toll"]) /\
  strip (lower "  ") = EmptyString /\
  (forall details, contains (strip (lower "  ")) details = true) /\
  Category (set_Category "Misc" (sample_row 0 "Salik toll"))
  <> "Uncategorized".
Proof.
  split; [vm_compute; now left|].
  apply (blank_keyword_matches_all
           [("Food", ["starbucks"]); ("Misc", ["  "])] "Misc" ["  "] "  "
           [sample_row 0 "Salik toll"]
           (set_Category "Misc" (sample_row 0 "Salik toll"))).
  - right. now left.
  - discriminate.
  - now left.
  - reflexivity.
  - vm_compute. now left.
Defined.

End Categorizer.

(* ================================================================== *)
(** ** The feedback applier: [add_keyword_to_category] (lines 61-68) *)

Module Feedback.
Import PyStr.

(** The state the function works on: the ruleset of the session and the
    content of [categories.json] ([None] while the file does not
    exist).  The file holds the ruleset [json.dump] wrote last. *)
Record Session : Type := mkSession {
  categories : Ruleset;
  category_file : option Ruleset
}.

Inductive Exception : Type :=
| KeyError (key : string).

(** How a call ends: it returns a value or raises. *)
Inductive Outcome : Type :=
| Return (value : bool)
| Raise (e : Exception).

(** [categories[category]] *)
Fixpoint lookup (category : string) (rs : Ruleset) : option (list string) :=
  match rs with
  | [] => None
  | (c, keywords) :: rest =>
      if (c =? category)%string then Some keywords else lookup category rest
  end.

(** [categories[category].append(keyword)]: the list stored under the key
    grows in place, the order of the keys is untouched. *)
Fixpoint append_keyword (category keyword : string) (rs : Ruleset) : Ruleset :=
  match rs with
  | [] => []
  | (c, keywords) :: rest =>
      if (c =? category)%string
      then (c, keywords ++ [keyword]) :: rest
      else (c, keywords) :: append_keyword category keyword rest
  end.

(** Lines 20-22. *)
Definition save_categories (st : Session) : Session :=
  {| categories := categories st; category_file := Some (categories st) |}.

(** Lines 61-68.  [keyword and keyword not in categories[category]]
    evaluates left to right: an empty keyword ends the test before the
    dictionary is read. *)
Definition add_keyword_to_category (category keyword : string) (st : Session)
    : Outcome * Session :=
  let keyword := strip keyword in
  if truthy keyword then
    match lookup category (categories st) with
    | None => (Raise (KeyError category), st)
    | Some keywords =>
        if negb (mem keyword keywords) then
          let st := {| categories := append_keyword category keyword (categories st);
                       category_file := category_file st |} in
          let st := save_categories st in
          (Return true, st)
        else (Return false, st)
    end
  else (Return false, st).

(** *** Facts about the dictionary operations *)

Lemma lookup_append_same (category keyword : string) (rs : Ruleset)
    (keywords : list string) :
  lookup category rs = Some keywords ->
  lookup category (append_keyword category keyword rs)
  = Some (keywords ++ [keyword]).
Proof.
  induction rs as [|[c k] rs IH]; simpl; [discriminate|].
  destruct (c =? category)%string eqn:E; simpl; rewrite E.
  - intros H. now inversion H.
  - exact IH.
Qed.

Lemma lookup_append_other (category keyword c : string) (rs : Ruleset) :
  c <> category ->
  lookup c (append_keyword category keyword rs) = lookup c rs.
Proof.
  intros Hc. induction rs as [|[c' k] rs IH]; simpl; [reflexivity|].
  destruct (c' =? category)%string eqn:E; simpl.
  - apply String.eqb_eq in E. subst c'.
    apply not_eq_sym in Hc. apply String.eqb_neq in Hc. now rewrite Hc.
  - destruct (c' =? c)%string; [reflexivity | exact IH].
Qed.

Lemma append_keyword_keys (category keyword : string) (rs : Ruleset) :
  map fst (append_keyword category keyword rs) = map fst rs.
Proof.
  induction rs as [|[c k] rs IH]; simpl; [reflexivity|].
  destruct (c =? category)%string; simpl; [reflexivity | now rewrite IH].
Qed.

(** The two ways the call can go for a category of the ruleset. *)
Lemma add_keyword_new (category keyword : string) (st : Session)
    (keywords : list string) :
  lookup category (categories st) = Some keywords ->
  strip keyword <> EmptyString -> ~ In (strip keyword) keywords ->
  add_keyword_to_category category keyword st
  = (Return true,
     save_categories
       {| categories := append_keyword category (strip keyword) (categories st);
          category_file := category_file st |}).
Proof.
  intros Hl Hne Hnin. unfold add_keyword_to_category.
  apply truthy_nonempty in Hne. rewrite Hne, Hl.
  destruct (mem (strip keyword) keywords) eqn:M; [|reflexivity].
  apply mem_In in M. contradiction.
Qed.

Lemma add_keyword_known (category keyword : string) (st : Session)
    (keywords : list string) :
  lookup category (categories st) = Some keywords ->
  strip keyword = EmptyString \/ In (strip keyword) keywords ->
  add_keyword_to_category category keyword st = (Return false, st).
Proof.
  intros Hl H. unfold add_keyword_to_category.
  destruct (truthy (strip keyword)) eqn:T; [|reflexivity].
  rewrite Hl. destruct H as [H|H].
  - apply truthy_nonempty in T. contradiction.
  - apply mem_In in H. now rewrite H.
Qed.


(** *** Sample session *)

Definition sample_session : Session :=
  {| categories := [("Uncategorized", []); ("Transport", ["uber"])];
     category_file := None |}.

(** C6. For a category of the ruleset, the call strips the keyword, and
    appends it to the list of the category and saves the ruleset if and
    only if the stripped keyword is non-empty and not yet in that list; it
    returns [True] exactly then, and otherwise returns [False] and leaves
    the session as it was.  A second call with the same arguments returns
    [False] and changes nothing. *)
Theorem add_keyword_contract (category keyword : string) (st : Session)
    (keywords : list string) :
  lookup category (categories st) = Some keywords ->
  let k := strip keyword in
  let result := add_keyword_to_category category keyword st in
  let st' := snd result in
  (fst result = Return true <-> (k <> EmptyString /\ ~ In k keywords)) /\
  (fst result = Return true ->
     lookup category (categories st') = Some (keywords ++ [k]) /\
     (forall c, c <> category ->
        lookup c (categories st') = lookup c (categories st)) /\
     map fst (categories st') = map fst (categories st) /\
     category_file st' = Some (categories st')) /\
  (fst result <> Return true -> fst result = Return false /\ st' = st) /\
  add_keyword_to_category category keyword st' = (Return false, st').
Proof.
  intros Hl k result st'. subst k result st'.
  destruct (string_dec (strip keyword) EmptyString) as [He|Hne].
  - rewrite (add_keyword_known category keyword st keywords Hl (or_introl He)).
    simpl. repeat split; try discriminate; try tauto.
    apply (add_keyword_known category keyword st keywords Hl (or_introl He)).
  - destruct (in_dec string_dec (strip keyword) keywords) as [Hin|Hnin].
    + rewrite (add_keyword_known category keyword st keywords Hl (or_intror Hin)).
      simpl. repeat split; try discriminate; try tauto.
      apply (add_keyword_known category keyword st keywords Hl (or_intror Hin)).
    + rewrite (add_keyword_new category keyword st keywords Hl Hne Hnin).
      simpl. repeat split; try tauto.
      * now apply lookup_append_same.
      * intros c Hc. now apply lookup_append_other.
      * apply append_keyword_keys.
      * apply (add_keyword_known category keyword _
                 (keywords ++ [strip keyword])).
        -- simpl. now apply lookup_append_same.
        -- right. apply in_or_app. right. now left.
Qed.

Lemma add_keyword_contract_witness :
  add_keyword_to_category "Transport" " Careem "
    (snd (add_keyword_to_category "Transport" " Careem " sample_session))
  = (Return false,
     snd (add_keyword_to_category "Transport" " Careem " sample_session)).
Proof.
  apply (add_keyword_contract "Transport" " Careem " sample_session ["uber"]).
  reflexivity.
Defined.

(** C4, as stated, fails: "UBER" is learnt although "uber", equal to it up
    to case, is already in the list; and "uber" is learnt although the
    list holds " uber ", equal to it up to surrounding whitespace. *)
Lemma duplicate_up_to_case_is_added :
  (lookup "Transport" (categories sample_session) = Some ["uber"] /\
   strip (lower "uber") = strip (lower "UBER") /\
   add_keyword_to_category "Transport" "UBER" sample_session
   = (Return true,
      {| categories := [("Uncategorized", []); ("Transport", ["uber"; "UBER"])];
         category_file :=
           Some [("Uncategorized", []); ("Transport", ["uber"; "UBER"])] |})) /\
  (strip (lower " uber ") = strip (lower "uber") /\
   add_keyword_to_category "Transport" "uber"
     {| categories := [("Transport", [" uber "])]; category_file := None |}
   = (Return true,
      {| categories := [("Transport", [" uber "; "uber"])];
         category_file := Some [("Transport", [" uber "; "uber"])] |})).
Proof. repeat split. Qed.

(** C4, amended.  Duplicate detection strips the new keyword and then
    compares exactly (case-sensitively) with the stored keywords: when the
    list of the category already holds the stripped keyword, the call
    returns [False] and leaves the ruleset and the file as they were. *)
Theorem add_keyword_duplicate (category keyword : string) (st : Session)
    (keywords : list string) :
  lookup category (categories st) = Some keywords ->
  In (strip keyword) keywords ->
  add_keyword_to_category category keyword st = (Return false, st).
Proof.
  intros Hl Hin. apply (add_keyword_known category keyword st keywords Hl).
  now right.
Qed.

Lemma add_keyword_duplicate_witness :
  add_keyword_to_category "Transport" "  uber " sample_session
  = (Return false, sample_session).
Proof.
  apply (add_keyword_duplicate "Transport" "  uber " sample_session ["uber"]).
  - reflexivity.
  - vm_compute. now left.
Defined.

(** C7, as stated, fails: with a keyword of whitespace only the call
    returns [False] for a category the ruleset does not have; nothing is
    raised. *)
Lemma blank_keyword_unknown_category_returns :
  lookup "Food" (categories sample_session) = None /\
  add_keyword_to_category "Food" "   " sample_session
  = (Return false, sample_session).
Proof. split; reflexivity. Qed.

(** C7, amended.  For a category name that is not a key of the ruleset:
    when the stripped keyword is non-empty the call raises [KeyError] for
    that name, when it is empty the call returns [False]; either way the
    ruleset and the file are unchanged. *)
Theorem add_keyword_unknown_category (category keyword : string) (st : Session) :
  lookup category (categories st) = None ->
  (strip keyword <> EmptyString ->
     add_keyword_to_category category keyword st
     = (Raise (KeyError category), st)) /\
  (strip keyword = EmptyString ->
     add_keyword_to_category category keyword st = (Return false, st)).
Proof.
  intros Hl. unfold add_keyword_to_category. rewrite Hl. split; intros H.
  - apply truthy_nonempty in H. now rewrite H.
  - now rewrite H.
Qed.

Lemma add_keyword_unknown_category_witness :
  add_keyword_to_category "Food" "Starbucks Downtown" sample_session
  = (Raise (KeyError "Food"), sample_session).
Proof.
  apply (add_keyword_unknown_category "Food" "Starbucks Downtown" sample_session).
  - reflexivity.
  - discriminate.
Defined.

End Feedback.


(* ================================================================== *)
(** ** Frames as [pd.read_csv] gives them *)

(** A cell of the table [pd.read_csv] returns.  [read_csv] types each
    column as a whole: a column in which every cell that is there reads
    as a number (or as a boolean) comes back typed, its cells numbers
    ([Other]); any other column comes back as text, its cells strings
    ([Text]).  In both kinds an empty cell, or one that holds an NA
    token such as N/A, comes back as NaN ([Missing]). *)
Inductive Cell : Type :=
| Text (s : string)
| Missing
| Other.

(** One row of the frame once lines 47 and 50 have converted the Amount
    and Date columns: [row_Date] is [None] for NaT, [row_Amount] may be
    NaN, the other cells are as [read_csv] left them. *)
Record Row : Type := mkRow {
  row_Index : nat;
  row_Date : option Z;
  row_Details : Cell;
  row_Amount : float;
  row_DebitCredit : Cell;
  row_Status : Cell;
  row_Category : string
}.

Definition Frame : Type := list Row.

Module Frames.
Import PyStr.

Definition is_text (c : Cell) : bool :=
  match c with
  | Text _ => true
  | _ => false
  end.

Definition cell_text (c : Cell) : string :=
  match c with
  | Text s => s
  | _ => EmptyString
  end.

(** The row with its [Category] cell replaced. *)
Definition set_row_Category (category : string) (row : Row) : Row :=
  {| row_Index := row_Index row; row_Date := row_Date row;
     row_Details := row_Details row; row_Amount := row_Amount row;
     row_DebitCredit := row_DebitCredit row; row_Status := row_Status row;
     row_Category := category |}.

(** [df.at[idx, "Category"] = category] *)
Definition set_at_row (idx : nat) (category : string) (df : Frame) : Frame :=
  map (fun row =>
         if row_Index row =? idx then set_row_Category category row else row)
      df.

(** Converting every element: one element that does not convert makes
    the whole conversion fail. *)
Fixpoint convert {A B : Type} (f : A -> option B) (cells : list A)
    : option (list B) :=
  match cells with
  | [] => Some []
  | cell :: rest =>
      match f cell with
      | None => None
      | Some v =>
          match convert f rest with
          | None => None
          | Some vs => Some (v :: vs)
          end
      end
  end.

(** A row all of whose cells are there: a dated row with text in Details
    and in Debit/Credit.  The Status cell, read by no later step, is kept
    when it is text. *)
Definition to_transaction (row : Row) : option Transaction :=
  match row_Date row, row_Details row, row_DebitCredit row with
  | Some date, Text details, Text direction =>
      Some {| Index := row_Index row; Date := date; Details := details;
              Amount := row_Amount row; DebitCredit := direction;
              Status := cell_text (row_Status row);
              Category := row_Category row |}
  | _, _, _ => None
  end.

Definition transactions_of (df : Frame) : option DataFrame :=
  convert to_transaction df.

(** *** [categorize_transactions] (lines 24-39) on such a frame

    The same loops as in [Categorizer]; here a Details cell that is not
    text makes [row["Details"].lower()] raise, which is [None]. *)

Definition row_matches (lowered_keywords : list string) (row : Row)
    : option bool :=
  match row_Details row with
  | Text details =>
      let details := strip (lower details) in
      Some (existsb (fun keyword => contains keyword details) lowered_keywords)
  | _ => None
  end.

(** Lines 33-37: [todo] are the rows [df.iterrows()] has still to yield,
    [frame] is the frame as written so far. *)
Fixpoint assign_category (category : string) (lowered_keywords : list string)
    (todo : Frame) (frame : Frame) : option Frame :=
  match todo with
  | [] => Some frame
  | row :: rest =>
      match row_matches lowered_keywords row with
      | None => None
      | Some true =>
          assign_category category lowered_keywords rest
            (set_at_row (row_Index row) category frame)
      | Some false => assign_category category lowered_keywords rest frame
      end
  end.

(** Lines 27-37. *)
Fixpoint categorize_loop (items : Ruleset) (df : Frame) : option Frame :=
  match items with
  | [] => Some df
  | (category, keywords) :: rest =>
      if (category =? "Uncategorized")%string || Categorizer.is_empty keywords
      then categorize_loop rest df
      else
        match assign_category category (Categorizer.lowered keywords) df df with
        | None => None
        | Some df => categorize_loop rest df
        end
  end.

Definition categorize_transactions (categories : Ruleset) (df : Frame) : option Frame :=
  let df := map (set_row_Category "Uncategorized") df in
  categorize_loop categories df.

(** An entry whose turn executes the inner loop. *)
Definition eligible (entry : string * list string) : bool :=
  negb ((fst entry =? "Uncategorized")%string
        || Categorizer.is_empty (snd entry)).

(** *** Facts about conversion *)

Lemma convert_None {A B : Type} (f : A -> option B) (cells : list A) :
  convert f cells = None <-> exists cell, In cell cells /\ f cell = None.
Proof.
  induction cells as [|c cells IH]; simpl.
  - split; [discriminate | intros [x [[] _]]].
  - destruct (f c) eqn:Fc.
    + destruct (convert f cells) eqn:Cv.
      * split; [discriminate|]. intros [x [[<-|Hin] Hx]]; [congruence|].
        assert (Some l = None) as E by (apply IH; now exists x).
        discriminate E.
      * split; [|reflexivity]. intros _.
        destruct (proj1 IH eq_refl) as [x [Hin Hx]]. exists x. auto.
    + split; [|reflexivity]. intros _. exists c. auto.
Qed.

Lemma convert_Some {A B : Type} (f : A -> option B) (cells : list A) :
  (forall cell, In cell cells -> f cell <> None) ->
  exists vs, convert f cells = Some vs.
Proof.
  intros H. destruct (convert f cells) eqn:E; [now exists l|].
  apply convert_None in E. destruct E as [x [Hin Hx]].
  now apply H in Hin.
Qed.

Lemma convert_map {A B C : Type} (g : A -> B) (f : B -> option C)
    (cells : list A) :
  convert f (map g cells) = convert (fun x => f (g x)) cells.
Proof.
  induction cells as [|c cells IH]; simpl; [reflexivity|].
  now rewrite IH.
Qed.

Lemma convert_Forall2 {A B : Type} (f : A -> option B) (l : list A)
    (vs : list B) :
  convert f l = Some vs -> Forall2 (fun x v => f x = Some v) l vs.
Proof.
  revert vs. induction l as [|x l IH]; simpl; intros vs H.
  - inversion H. constructor.
  - destruct (f x) eqn:Fx; [|discriminate].
    destruct (convert f l) eqn:C; [|discriminate].
    inversion H. subst. constructor; auto.
Qed.

Lemma convert_commute {A B : Type} (f : A -> option B) (g : A -> A)
    (h : B -> B) (l : list A) (vs : list B) :
  (forall x v, f x = Some v -> f (g x) = Some (h v)) ->
  convert f l = Some vs -> convert f (map g l) = Some (map h vs).
Proof.
  intros Hgh. revert vs. induction l as [|x l IH]; simpl; intros vs H.
  - inversion H. reflexivity.
  - destruct (f x) eqn:Fx; [|discriminate].
    destruct (convert f l) eqn:C; [|discriminate].
    inversion H. subst. simpl.
    now rewrite (Hgh x b Fx), (IH l0 eq_refl).
Qed.

Lemma to_transaction_cells (row : Row) (t : Transaction) :
  to_transaction row = Some t ->
  row_Index row = Index t /\ row_Details row = Text (Details t) /\
  row_Date row = Some (Date t) /\ row_DebitCredit row = Text (DebitCredit t) /\
  row_Amount row = Amount t /\ row_Category row = Category t.
Proof.
  unfold to_transaction.
  destruct (row_Date row), (row_Details row), (row_DebitCredit row);
    try discriminate.
  intros H. inversion H. simpl. repeat split; reflexivity.
Qed.

Lemma to_transaction_set (c : string) (row : Row) (t : Transaction) :
  to_transaction row = Some t ->
  to_transaction (set_row_Category c row) = Some (set_Category c t).
Proof.
  unfold to_transaction. simpl.
  destruct (row_Date row), (row_Details row), (row_DebitCredit row);
    try discriminate.
  intros H. inversion H. reflexivity.
Qed.

(** *** The loops on rows with text details are those of [Categorizer] *)

Section Views.

(** A way of reading rows as typed rows that keeps the label and the
    details, the two cells the loops look at, and follows the Category
    cell. *)
Variable view : Row -> option Transaction.
Hypothesis view_cells :
  forall row t, view row = Some t ->
  row_Index row = Index t /\ row_Details row = Text (Details t).
Hypothesis view_set :
  forall c row t, view row = Some t ->
  view (set_row_Category c row) = Some (set_Category c t).

Lemma view_set_at (idx : nat) (c : string) (df : Frame) (tdf : DataFrame) :
  convert view df = Some tdf ->
  convert view (set_at_row idx c df) = Some (Categorizer.set_at idx c tdf).
Proof.
  unfold set_at_row, Categorizer.set_at.
  apply convert_commute. intros row t H.
  destruct (view_cells row t H) as [Hi _]. rewrite Hi.
  destruct (Index t =? idx); [now apply view_set | exact H].
Qed.

Lemma details_match_view (lowered_keywords : list string) (row : Row)
    (t : Transaction) :
  view row = Some t ->
  row_matches lowered_keywords row
  = Some (Categorizer.row_matches lowered_keywords t).
Proof.
  intros H. destruct (view_cells row t H) as [_ Hd].
  unfold row_matches, Categorizer.row_matches. now rewrite Hd.
Qed.

Lemma assign_cells_view (category : string) (lowered_keywords : list string)
    (todo : Frame) :
  forall (ttodo : DataFrame) (frame : Frame) (tframe : DataFrame),
  convert view todo = Some ttodo ->
  convert view frame = Some tframe ->
  exists out,
    assign_category category lowered_keywords todo frame = Some out /\
    convert view out
    = Some (fold_left
              (fun f row =>
                 if Categorizer.row_matches lowered_keywords row
                 then Categorizer.set_at (Index row) category f else f)
              ttodo tframe).
Proof.
  induction todo as [|row todo IH]; intros ttodo frame tframe Ht Hf.
  - inversion Ht. exists frame. now split.
  - simpl in Ht.
    destruct (view row) as [t|] eqn:Hr; [|discriminate].
    destruct (convert view todo) as [ts|] eqn:Hts; [|discriminate].
    inversion Ht. subst ttodo. simpl.
    rewrite (details_match_view lowered_keywords row t Hr).
    destruct (view_cells row t Hr) as [Hi _]. rewrite Hi.
    destruct (Categorizer.row_matches lowered_keywords t).
    + apply (IH ts); [reflexivity | now apply view_set_at].
    + now apply (IH ts).
Qed.

Lemma categorize_cells_loop_view (items : Ruleset) :
  forall (df : Frame) (tdf : DataFrame),
  convert view df = Some tdf ->
  exists out,
    categorize_loop items df = Some out /\
    convert view out = Some (Categorizer.categorize_loop items tdf).
Proof.
  induction items as [|[category keywords] rest IH]; intros df tdf H.
  - exists df. now split.
  - simpl.
    destruct ((category =? "Uncategorized")%string
              || Categorizer.is_empty keywords); [now apply IH|].
    destruct (assign_cells_view category (Categorizer.lowered keywords)
                df tdf df tdf H H) as [out [Ho Hto]].
    rewrite Ho. now apply IH.
Qed.

(** On a frame all of whose rows can be read, the function does what
    [Categorizer.categorize_transactions] does on the rows as read. *)
Lemma categorize_cells_view (categories : Ruleset) (df : Frame)
    (tdf : DataFrame) :
  convert view df = Some tdf ->
  exists out,
    categorize_transactions categories df = Some out /\
    convert view out
    = Some (Categorizer.categorize_transactions categories tdf).
Proof.
  intros H. unfold categorize_transactions, Categorizer.categorize_transactions.
  apply categorize_cells_loop_view.
  apply convert_commute; [|exact H].
  intros row t. apply view_set.
Qed.

End Views.

(** The row as the categorizer reads it: the label and the details, which
    have to be text, are all it looks at; the other cells are taken over
    where they are there (a missing date as the epoch, a cell that is not
    text as the empty string). *)
Definition as_read (row : Row) : option Transaction :=
  match row_Details row with
  | Text details =>
      Some {| Index := row_Index row;
              Date := match row_Date row with
                      | Some date => date
                      | None => 0%Z
                      end;
              Details := details;
              Amount := row_Amount row;
              DebitCredit := cell_text (row_DebitCredit row);
              Status := cell_text (row_Status row);
              Category := row_Category row |}
  | _ => None
  end.

Lemma as_read_cells (row : Row) (t : Transaction) :
  as_read row = Some t ->
  row_Index row = Index t /\ row_Details row = Text (Details t).
Proof.
  unfold as_read. destruct (row_Details row); try discriminate.
  intros H. inversion H. simpl. split; reflexivity.
Qed.

Lemma as_read_set (c : string) (row : Row) (t : Transaction) :
  as_read row = Some t ->
  as_read (set_row_Category c row) = Some (set_Category c t).
Proof.
  unfold as_read. simpl. destruct (row_Details row); try discriminate.
  intros H. inversion H. reflexivity.
Qed.

Lemma as_read_Category (row : Row) (t : Transaction) :
  as_read row = Some t -> Category t = row_Category row.
Proof.
  unfold as_read. destruct (row_Details row); try discriminate.
  intros H. inversion H. reflexivity.
Qed.

Lemma as_read_text (df : Frame) :
  (forall row, In row df -> is_text (row_Details row) = true) ->
  exists seen, convert as_read df = Some seen.
Proof.
  intros H. apply convert_Some. intros row Hin. specialize (H row Hin).
  unfold as_read. destruct (row_Details row); discriminate.
Qed.

Lemma to_transaction_view (row : Row) (t : Transaction) :
  to_transaction row = Some t ->
  row_Index row = Index t /\ row_Details row = Text (Details t).
Proof.
  intros H. destruct (to_transaction_cells row t H) as [Hi [Hd _]]. now split.
Qed.

(** On a frame of complete rows the function does what
    [Categorizer.categorize_transactions] does on the typed rows. *)
Lemma categorize_cells_complete (categories : Ruleset) (df : Frame)
    (tdf : DataFrame) :
  transactions_of df = Some tdf ->
  exists out,
    categorize_transactions categories df = Some out /\
    transactions_of out
    = Some (Categorizer.categorize_transactions categories tdf).
Proof.
  apply (categorize_cells_view to_transaction to_transaction_view).
  intros c row t. apply to_transaction_set.
Qed.

(** *** What the loops keep, and when they raise *)

Lemma set_at_row_erased (idx : nat) (category c : string) (df : Frame) :
  map (set_row_Category c) (set_at_row idx category df)
  = map (set_row_Category c) df.
Proof.
  unfold set_at_row. rewrite map_map. apply map_ext. intros r.
  now destruct (row_Index r =? idx).
Qed.

Lemma assign_cells_erased (category : string) (lowered_keywords : list string)
    (c : string) (todo : Frame) :
  forall frame out,
  assign_category category lowered_keywords todo frame = Some out ->
  map (set_row_Category c) out = map (set_row_Category c) frame.
Proof.
  induction todo as [|row todo IH]; simpl; intros frame out H.
  - now inversion H.
  - destruct (row_matches lowered_keywords row) as [[|]|]; [| |discriminate].
    + rewrite (IH _ _ H). apply set_at_row_erased.
    + exact (IH _ _ H).
Qed.

Lemma categorize_cells_loop_erased (c : string) (items : Ruleset) :
  forall df out,
  categorize_loop items df = Some out ->
  map (set_row_Category c) out = map (set_row_Category c) df.
Proof.
  induction items as [|[category keywords] rest IH]; simpl; intros df out H.
  - now inversion H.
  - destruct ((category =? "Uncategorized")%string
              || Categorizer.is_empty keywords); [exact (IH _ _ H)|].
    destruct (assign_category category (Categorizer.lowered keywords) df df)
      as [df1|] eqn:A; [|discriminate].
    rewrite (IH _ _ H). exact (assign_cells_erased _ _ c df df df1 A).
Qed.

(** Only the Category column differs from the frame handed in. *)
Lemma categorize_cells_erased (categories : Ruleset) (df out : Frame)
    (c : string) :
  categorize_transactions categories df = Some out ->
  map (set_row_Category c) out = map (set_row_Category c) df.
Proof.
  unfold categorize_transactions. intros H.
  rewrite (categorize_cells_loop_erased c _ _ _ H), map_map.
  now apply map_ext.
Qed.


Lemma assign_cells_raises (category : string) (lowered_keywords : list string)
    (todo : Frame) :
  forall frame,
  (exists row, In row todo /\ is_text (row_Details row) = false) ->
  assign_category category lowered_keywords todo frame = None.
Proof.
  induction todo as [|r todo IH]; intros frame [row [Hin Hrow]];
    [destruct Hin|].
  simpl. unfold row_matches at 1.
  destruct (row_Details r) as [s| |] eqn:D; try reflexivity.
  destruct Hin as [->|Hin]; [rewrite D in Hrow; discriminate|].
  assert (exists row, In row todo /\ is_text (row_Details row) = false) as Hex
    by (now exists row).
  destruct (existsb _ lowered_keywords); now apply IH.
Qed.

Lemma assign_cells_returns (category : string) (lowered_keywords : list string)
    (todo : Frame) :
  forall frame,
  (forall row, In row todo -> is_text (row_Details row) = true) ->
  exists out, assign_category category lowered_keywords todo frame = Some out.
Proof.
  induction todo as [|r todo IH]; intros frame H; simpl; [now exists frame|].
  unfold row_matches at 1.
  pose proof (H r (or_introl eq_refl)) as Hr.
  destruct (row_Details r); try discriminate.
  destruct (existsb _ lowered_keywords); apply IH; intros row Hin; apply H;
    now right.
Qed.

Lemma erased_details (df out : Frame) :
  map (set_row_Category EmptyString) out
  = map (set_row_Category EmptyString) df ->
  map row_Details out = map row_Details df.
Proof.
  intros H.
  assert (forall l, map row_Details l
                    = map row_Details (map (set_row_Category EmptyString) l))
    as E by (intros l; rewrite map_map; now apply map_ext).
  now rewrite (E out), (E df), H.
Qed.

Lemma all_text_details (df : Frame) :
  (forall row, In row df -> is_text (row_Details row) = true)
  <-> forallb is_text (map row_Details df) = true.
Proof.
  rewrite forallb_forall. split.
  - intros H c Hc. apply in_map_iff in Hc. destruct Hc as [row [<- Hin]]. auto.
  - intros H row Hin. apply H. now apply in_map.
Qed.

(** Without an eligible entry the inner loop never runs. *)
Lemma categorize_cells_loop_idle (items : Ruleset) (df : Frame) :
  existsb eligible items = false -> categorize_loop items df = Some df.
Proof.
  induction items as [|[category keywords] rest IH]; simpl; [reflexivity|].
  unfold eligible at 1. simpl.
  destruct ((category =? "Uncategorized")%string
            || Categorizer.is_empty keywords); simpl; [exact IH | discriminate].
Qed.

Lemma categorize_cells_loop_returns (items : Ruleset) :
  forall df,
  (forall row, In row df -> is_text (row_Details row) = true) ->
  exists out, categorize_loop items df = Some out.
Proof.
  induction items as [|[category keywords] rest IH]; intros df H; simpl;
    [now exists df|].
  destruct ((category =? "Uncategorized")%string
            || Categorizer.is_empty keywords); [now apply IH|].
  destruct (assign_cells_returns category (Categorizer.lowered keywords) df df H)
    as [df1 A].
  rewrite A. apply IH. apply all_text_details.
  rewrite (erased_details df df1 (assign_cells_erased _ _ _ _ _ _ A)).
  now apply all_text_details.
Qed.

Lemma categorize_cells_loop_raises (items : Ruleset) (df : Frame) :
  existsb eligible items = true ->
  (exists row, In row df /\ is_text (row_Details row) = false) ->
  categorize_loop items df = None.
Proof.
  intros He Hbad.
  induction items as [|[category keywords] rest IH]; simpl in *;
    [discriminate|].
  unfold eligible in He at 1. simpl in He.
  destruct ((category =? "Uncategorized")%string
            || Categorizer.is_empty keywords); simpl in He; [now apply IH|].
  now rewrite (assign_cells_raises category _ df df Hbad).
Qed.

(** When the call returns and when it raises. *)
Lemma categorize_cells_outcome (categories : Ruleset) (df : Frame) :
  (categorize_transactions categories df <> None <->
   (existsb eligible categories = false \/
    forall row, In row df -> is_text (row_Details row) = true)) /\
  (existsb eligible categories = false ->
   categorize_transactions categories df
   = Some (map (set_row_Category "Uncategorized") df)).
Proof.
  unfold categorize_transactions.
  set (df0 := map (set_row_Category "Uncategorized") df).
  assert (Hd : map row_Details df0 = map row_Details df)
    by (unfold df0; rewrite map_map; now apply map_ext).
  split; [|apply categorize_cells_loop_idle].
  split.
  - intros H. destruct (existsb eligible categories) eqn:E; [right | now left].
    apply all_text_details.
    destruct (forallb is_text (map row_Details df)) eqn:F; [reflexivity|].
    exfalso. apply H. apply (categorize_cells_loop_raises _ _ E).
    rewrite <- Hd in F.
    assert (~ forallb is_text (map row_Details df0) = true) as F' by congruence.
    destruct (forallb is_text (map row_Details df0)) eqn:F2; [congruence|].
    clear - F2. induction df0 as [|r l IH]; simpl in F2; [discriminate|].
    destruct (is_text (row_Details r)) eqn:T.
    + destruct (IH F2) as [row [Hin Hr]]. exists row. split; [now right|auto].
    + exists r. split; [now left | exact T].
  - intros [E|Ht].
    + now rewrite (categorize_cells_loop_idle _ df0 E).
    + destruct (categorize_cells_loop_returns categories df0) as [out ->];
        [|discriminate].
      apply all_text_details. rewrite Hd. now apply all_text_details.
Qed.


End Frames.

(* ================================================================== *)
(** ** The record normalizer: [load_transactions] (lines 41-59) *)

Module Normalizer.
Import PyStr Frames.

(** One line of the table [pd.read_csv] returns: the cells under the
    columns the code reads.  A cell of a column the table does not have
    is never looked at. *)
Record RawRow : Type := mkRawRow {
  raw_Date : Cell;
  raw_Details : Cell;
  raw_Amount : Cell;
  raw_DebitCredit : Cell;
  raw_Status : Cell
}.

(** The table [pd.read_csv] returns: the column names as it gives them
    (not yet stripped), and the lines in file order. *)
Record RawFrame : Type := mkRawFrame {
  columns : list string;
  rows : list RawRow
}.

(** How many columns have the name, once line 44 has stripped the names.
    [df[name]] raises [KeyError] for none and is a frame, not a column,
    for more than one. *)
Definition occurs (name : string) (names : list string) : nat :=
  List.length (filter (String.eqb name) names).

(** The column the code reads under [name]: with no such column, or
    with several, what [row[name]] gives is not text. *)
Definition column_cell (name : string) (names : list string) (c : Cell)
    : Cell :=
  if occurs name names =? 1 then c else Other.

(** The column is of the text kind: one of its cells is a string, or it
    has no lines at all.  Only on such a column does [.str] (line 47)
    not raise. *)
Definition text_column (cells : list Cell) : bool :=
  match cells with
  | [] => true
  | _ :: _ => existsb is_text cells
  end.

Definition NaN : float := S754_nan.

(** [df["Status"] == "SETTLED"], cell by cell. *)
Definition is_settled (c : Cell) : bool :=
  match c with
  | Text s => (s =? "SETTLED")%string
  | _ => false
  end.

Definition settled (row : Row) : bool := is_settled (row_Status row).

(** The frame after lines 47 and 50: line [i] of the table gets the
    label [index + i] ([read_csv] labels the lines 0, 1, 2, ...). *)
Fixpoint frame (names : list string) (index : nat) (lines : list RawRow)
    (amounts : list float) (dates : list (option Z)) : Frame :=
  match lines, amounts, dates with
  | r :: lines', a :: amounts', d :: dates' =>
      {| row_Index := index; row_Date := d;
         row_Details := column_cell "Details" names (raw_Details r);
         row_Amount := a;
         row_DebitCredit := column_cell "Debit/Credit" names (raw_DebitCredit r);
         row_Status := column_cell "Status" names (raw_Status r);
         row_Category := EmptyString |}
      :: frame names (S index) lines' amounts' dates'
  | _, _, _ => []
  end.

(** *** Facts about the row labels *)

Lemma In_indexed {A : Type} (l : list A) :
  forall k i x,
  In (i, x) (combine (seq k (List.length l)) l)
  <-> k <= i /\ nth_error l (i - k) = Some x.
Proof.
  induction l as [|y l IH]; intros k i x; simpl.
  - split; [intros [] | intros [_ H]]. now destruct (i - k).
  - rewrite IH. split.
    + intros [E | [Hk Hn]].
      * inversion E; subst. now rewrite Nat.sub_diag.
      * split; [lia|]. replace (i - k) with (S (i - S k)) by lia. exact Hn.
    + intros [Hk Hn]. destruct (Nat.eq_dec i k) as [->|Hne].
      * rewrite Nat.sub_diag in Hn. simpl in Hn. left. congruence.
      * right. split; [lia|].
        replace (i - k) with (S (i - S k)) in Hn by lia. exact Hn.
Qed.

Lemma labels_increasing {A : Type} (p : nat * A -> bool) (l : list A) :
  forall k,
  StronglySorted lt (map fst (filter p (combine (seq k (List.length l)) l))) /\
  Forall (fun i => k <= i) (map fst (filter p (combine (seq k (List.length l)) l))).
Proof.
  induction l as [|y l IH]; intros k; simpl.
  - split; constructor.
  - destruct (IH (S k)) as [Hs Hf]. destruct (p (k, y)); simpl.
    + split.
      * constructor; [exact Hs|].
        eapply Forall_impl; [|exact Hf]. simpl. intros; lia.
      * constructor; [lia|].
        eapply Forall_impl; [|exact Hf]. simpl. intros; lia.
    + split; [exact Hs|].
      eapply Forall_impl; [|exact Hf]. simpl. intros; lia.
Qed.

Lemma Forall2_filter {A B : Type} (R : A -> B -> Prop) (p : A -> bool)
    (q : B -> bool) (l1 : list A) (l2 : list B) :
  (forall x y, R x y -> p x = q y) ->
  Forall2 R l1 l2 -> Forall2 R (filter p l1) (filter q l2).
Proof.
  intros Hpq H. induction H as [|x y l1 l2 Hxy H IH]; simpl; [constructor|].
  rewrite (Hpq x y Hxy). destruct (q y); [constructor|]; assumption.
Qed.

Lemma Forall2_In_r {A B : Type} (R : A -> B -> Prop) (l1 : list A)
    (l2 : list B) (y : B) :
  Forall2 R l1 l2 -> In y l2 -> exists x, In x l1 /\ R x y.
Proof.
  intros H. induction H as [|x y' l1 l2 Hxy H IH]; simpl; [intros []|].
  intros [<-|Hin].
  - exists x. auto.
  - destruct (IH Hin) as [x' [Hx' Hr]]. exists x'. auto.
Qed.


Lemma occurs_In (name : string) (names : list string) :
  In name names <-> 0 < occurs name names.
Proof.
  unfold occurs. induction names as [|n names IH]; simpl.
  - split; [intros [] | lia].
  - destruct (String.eqb name n) eqn:E; simpl.
    + apply String.eqb_eq in E. split; [lia | intros _; left; congruence].
    + apply String.eqb_neq in E. rewrite <- IH.
      split; [intros [H|H]; [congruence | exact H] | now right].
Qed.




Section Loading.

(** The two library conversions the function calls on text: [float(s)],
    behind [astype(float)], and the parser of [pd.to_datetime] for the
    format ["%d %b %Y"]; [None] when the library raises. *)
Variable float_of_string : string -> option float.
Variable strptime : string -> option Z.

(** Line 47 on one cell of a column of text: [.str.replace] gives NaN
    for a cell that is not text, and NaN stays NaN under
    [astype(float)]. *)
Definition amount_of (c : Cell) : option float :=
  match c with
  | Text s => float_of_string (remove_commas s)
  | _ => Some NaN
  end.

(** Line 50 on one cell: a missing cell becomes NaT (here [None]); a
    number or a boolean does not have the format. *)
Definition date_of (c : Cell) : option (option Z) :=
  match c with
  | Text s => option_map Some (strptime s)
  | Missing => Some None
  | Other => None
  end.

(** Lines 41-59, from the table [read_csv] returned.  [None] is the
    value returned by the [except] branch.  With more than one column
    named Status the comparison of line 54 yields a frame of booleans
    with a repeated column name instead of a mask; indexing with it is
    taken to raise, and the statements below on when a frame is returned
    assume at most one such column. *)
Definition load_transactions (categories : Ruleset) (file : RawFrame)
    : option Frame :=
  let names := map strip (columns file) in
  let amount_cells := map raw_Amount (rows file) in
  if negb (occurs "Amount" names =? 1) || negb (text_column amount_cells)
  then None
  else
    match convert amount_of amount_cells with
    | None => None
    | Some amounts =>
        if negb (occurs "Date" names =? 1) then None
        else
          match convert date_of (map raw_Date (rows file)) with
          | None => None
          | Some dates =>
              let df := frame names 0 (rows file) amounts dates in
              match occurs "Status" names with
              | 0 => categorize_transactions categories df
              | 1 => categorize_transactions categories (filter settled df)
              | _ => None
              end
          end
    end.

(** What lines 47 and 50 need in order not to raise. *)
Definition converts (file : RawFrame) : Prop :=
  let names := map strip (columns file) in
  occurs "Amount" names = 1 /\
  text_column (map raw_Amount (rows file)) = true /\
  (forall r, In r (rows file) -> amount_of (raw_Amount r) <> None) /\
  occurs "Date" names = 1 /\
  (forall r, In r (rows file) -> date_of (raw_Date r) <> None).

(** The row of the frame a line becomes. *)
Definition typed (names : list string) (index : nat) (r : RawRow) (t : Row)
    : Prop :=
  row_Index t = index /\
  date_of (raw_Date r) = Some (row_Date t) /\
  row_Details t = column_cell "Details" names (raw_Details r) /\
  amount_of (raw_Amount r) = Some (row_Amount t) /\
  row_DebitCredit t = column_cell "Debit/Credit" names (raw_DebitCredit r) /\
  row_Status t = column_cell "Status" names (raw_Status r).

(** The lines the Status test keeps, with their labels. *)
Definition retained (file : RawFrame) : list (nat * RawRow) :=
  let indexed := combine (seq 0 (List.length (rows file))) (rows file) in
  if occurs "Status" (map strip (columns file)) =? 1
  then filter (fun ir => is_settled (raw_Status (snd ir))) indexed
  else indexed.

Lemma frame_typed (names : list string) (lines : list RawRow) :
  forall index amounts dates,
  convert (fun r => amount_of (raw_Amount r)) lines = Some amounts ->
  convert (fun r => date_of (raw_Date r)) lines = Some dates ->
  Forall2 (fun ir t => typed names (fst ir) (snd ir) t)
          (combine (seq index (List.length lines)) lines)
          (frame names index lines amounts dates).
Proof.
  induction lines as [|r lines IH]; intros index amounts dates Ha Hd; simpl.
  - constructor.
  - simpl in Ha, Hd.
    destruct (amount_of (raw_Amount r)) eqn:Fa; [|discriminate].
    destruct (convert _ lines) as [amounts'|] eqn:Ca in Ha; [|discriminate].
    destruct (date_of (raw_Date r)) eqn:Fd; [|discriminate].
    destruct (convert _ lines) as [dates'|] eqn:Cd in Hd; [|discriminate].
    inversion Ha; inversion Hd; subst. constructor.
    + unfold typed; simpl. now rewrite Fa, Fd.
    + now apply IH.
Qed.


Lemma typed_labels (names : list string) (l : list (nat * RawRow))
    (out : Frame) :
  Forall2 (fun ir t => typed names (fst ir) (snd ir) t) l out ->
  map row_Index out = map fst l.
Proof.
  intros H. induction H as [|ir t l out [Hi _] H IH]; simpl; [reflexivity|].
  now rewrite Hi, IH.
Qed.

(** The function returns exactly when nothing on its way raises, and
    then with the categorized rows of the retained lines. *)
Lemma load_transactions_Some (categories : Ruleset) (file : RawFrame)
    (out : Frame) :
  load_transactions categories file = Some out <->
  converts file /\ occurs "Status" (map strip (columns file)) <= 1 /\
  exists df,
    Forall2 (fun ir t => typed (map strip (columns file)) (fst ir) (snd ir) t)
            (retained file) df /\
    categorize_transactions categories df = Some out.
Proof.
  unfold load_transactions, converts, retained.
  set (names := map strip (columns file)).
  rewrite !convert_map.
  destruct (occurs "Amount" names =? 1) eqn:EA; simpl.
  2:{ apply Nat.eqb_neq in EA. split; [discriminate | tauto]. }
  apply Nat.eqb_eq in EA.
  destruct (text_column (map raw_Amount (rows file))) eqn:ET; simpl.
  2:{ split; [discriminate | intros [[_ [H _]] _]; discriminate]. }
  destruct (convert (fun x => amount_of (raw_Amount x)) (rows file))
    as [amounts|] eqn:Ha.
  2:{ split; [discriminate|]. intros [[_ [_ [H _]]] _]. exfalso.
      apply convert_None in Ha. destruct Ha as [r [Hin Hr]].
      exact (H r Hin Hr). }
  destruct (occurs "Date" names =? 1) eqn:ED; simpl.
  2:{ apply Nat.eqb_neq in ED. split; [discriminate | tauto]. }
  apply Nat.eqb_eq in ED.
  destruct (convert (fun x => date_of (raw_Date x)) (rows file))
    as [dates|] eqn:Hd.
  2:{ split; [discriminate|]. intros [[_ [_ [_ [_ H]]]] _]. exfalso.
      apply convert_None in Hd. destruct Hd as [r [Hin Hr]].
      exact (H r Hin Hr). }
  assert (Hconv : forall r, In r (rows file) ->
                    amount_of (raw_Amount r) <> None).
  { intros r Hin E.
    assert (convert (fun x => amount_of (raw_Amount x)) (rows file) = None)
      as C by (apply convert_None; now exists r).
    congruence. }
  assert (Hdate : forall r, In r (rows file) -> date_of (raw_Date r) <> None).
  { intros r Hin E.
    assert (convert (fun x => date_of (raw_Date x)) (rows file) = None)
      as C by (apply convert_None; now exists r).
    congruence. }
  pose proof (frame_typed names (rows file) 0 amounts dates Ha Hd) as Hf.
  assert (Hdet : forall df1 df2 : Frame,
            Forall2 (fun ir t => typed names (fst ir) (snd ir) t)
              (if occurs "Status" names =? 1
               then filter (fun ir => is_settled (raw_Status (snd ir)))
                      (combine (seq 0 (List.length (rows file))) (rows file))
               else combine (seq 0 (List.length (rows file))) (rows file))
              df1 ->
            Forall2 (fun ir t => typed names (fst ir) (snd ir) t)
              (if occurs "Status" names =? 1
               then filter (fun ir => is_settled (raw_Status (snd ir)))
                      (combine (seq 0 (List.length (rows file))) (rows file))
               else combine (seq 0 (List.length (rows file))) (rows file))
              df2 ->
            map (set_row_Category EmptyString) df1
            = map (set_row_Category EmptyString) df2).
  { intros df1 df2 H1. revert df2.
    induction H1 as [|ir t l df1 Ht H1 IH]; intros df2 H2; inversion H2;
      subst; [reflexivity|].
    simpl. f_equal; [|now apply IH].
    destruct Ht as [T1 [T2 [T3 [T4 [T5 T6]]]]].
    match goal with
    | H : typed _ _ _ _ |- _ => destruct H as [U1 [U2 [U3 [U4 [U5 U6]]]]]
    end.
    destruct t, y. simpl in *. unfold set_row_Category. simpl.
    congruence. }
  destruct (occurs "Status" names) as [|[|n]] eqn:ES; simpl in *.
  - split.
    + intros H. repeat split; auto. eexists. split; [exact Hf | exact H].
    + intros [_ [_ [df [Hdf Hc]]]].
      unfold categorize_transactions in *.
      assert (map (set_row_Category "Uncategorized") df
              = map (set_row_Category "Uncategorized")
                  (frame names 0 (rows file) amounts dates)) as E.
      { pose proof (Hdet _ _ Hdf Hf) as E0.
        apply (f_equal (map (set_row_Category "Uncategorized"))) in E0.
        rewrite !map_map in E0. exact E0. }
      now rewrite <- E.
  - assert (Hk : Forall2 (fun ir t => typed names (fst ir) (snd ir) t)
                   (filter (fun ir => is_settled (raw_Status (snd ir)))
                      (combine (seq 0 (List.length (rows file))) (rows file)))
                   (filter settled (frame names 0 (rows file) amounts dates))).
    { apply Forall2_filter; [|exact Hf].
      intros [i r] t [_ [_ [_ [_ [_ Hs]]]]]. simpl. unfold settled.
      rewrite Hs. unfold column_cell. now rewrite ES. }
    split.
    + intros H. repeat split; auto. eexists. split; [exact Hk | exact H].
    + intros [_ [_ [df [Hdf Hc]]]].
      unfold categorize_transactions in *.
      assert (map (set_row_Category "Uncategorized") df
              = map (set_row_Category "Uncategorized")
                  (filter settled (frame names 0 (rows file) amounts dates)))
        as E.
      { pose proof (Hdet _ _ Hdf Hk) as E0.
        apply (f_equal (map (set_row_Category "Uncategorized"))) in E0.
        rewrite !map_map in E0. exact E0. }
      now rewrite <- E.
  - split; [discriminate|]. intros [_ [H _]]. lia.
Qed.

Lemma retained_filter (file : RawFrame) :
  retained file
  = filter (fun ir => negb (occurs "Status" (map strip (columns file)) =? 1)
                      || is_settled (raw_Status (snd ir)))
           (combine (seq 0 (List.length (rows file))) (rows file)).
Proof.
  unfold retained.
  destruct (occurs "Status" (map strip (columns file)) =? 1); simpl.
  - reflexivity.
  - symmetry. apply forallb_filter_id. apply forallb_forall. reflexivity.
Qed.









End Loading.

(** *** Sample conversions and a sample file

    Two instances of the conversions, for the examples below: decimal
    literals without sign or exponent, and dates written as day, English
    month abbreviation and four-digit year. *)

Definition digit (c : ascii) : option Z :=
  let n := nat_of_ascii c in
  if (48 <=? n) && (n <=? 57) then Some (Z.of_nat (n - 48)) else None.

Fixpoint digits (s : string) (acc : Z) : option Z :=
  match s with
  | EmptyString => Some acc
  | String c s' =>
      match digit c with
      | Some d => digits s' (10 * acc + d)%Z
      | None => None
      end
  end.

(** The text before the first [sep], and the text after it if there is
    one. *)
Fixpoint split_at (sep : ascii) (s : string) : string * option string :=
  match s with
  | EmptyString => (EmptyString, None)
  | String c s' =>
      if Ascii.eqb c sep then (EmptyString, Some s')
      else let (before, after) := split_at sep s' in (String c before, after)
  end.

Definition plain_decimal (s : string) : option float :=
  let (whole, rest) := split_at "." s in
  let fraction := match rest with Some f => f | None => EmptyString end in
  if truthy (whole ++ fraction) then
    match digits (whole ++ fraction) 0 with
    | Some n => Some (F64.of_decimal n (String.length fraction))
    | None => None
    end
  else None.

Definition month_names : list (string * Z) :=
  [("jan", 1); ("feb", 2); ("mar", 3); ("apr", 4); ("may", 5); ("jun", 6);
   ("jul", 7); ("aug", 8); ("sep", 9); ("oct", 10); ("nov", 11);
   ("dec", 12)]%Z.

Definition month_number (name : string) : option Z :=
  option_map snd
    (find (fun entry => (fst entry =? lower name)%string) month_names).

Definition is_leap (y : Z) : bool :=
  ((y mod 4 =? 0) && negb (y mod 100 =? 0) || (y mod 400 =? 0))%Z.

Definition days_in_month (y m : Z) : Z :=
  (if m =? 2 then (if is_leap y then 29 else 28)
   else if (m =? 4) || (m =? 6) || (m =? 9) || (m =? 11) then 30
   else 31)%Z.

(** Days from 1970-01-01 to the given day of the Gregorian calendar. *)
Definition days_from_civil (y m d : Z) : Z :=
  (let y' := if m <=? 2 then y - 1 else y in
   let era := y' / 400 in
   let yoe := y' - era * 400 in
   let mp := (m + 9) mod 12 in
   let doy := (153 * mp + 2) / 5 + d - 1 in
   let doe := yoe * 365 + yoe / 4 - yoe / 100 + doy in
   era * 146097 + doe - 719468)%Z.

Definition day_month_year (s : string) : option Z :=
  let (dd, rest) := split_at " " s in
  match rest with
  | None => None
  | Some rest =>
      let (mon, rest) := split_at " " rest in
      match rest, digits dd 0, month_number mon with
      | Some yyyy, Some d, Some m =>
          match digits yyyy 0 with
          | Some y =>
              if truthy dd && (String.length dd <=? 2)
                 && (String.length yyyy =? 4)
                 && (1 <=? d)%Z && (d <=? days_in_month y m)%Z
              then Some (days_from_civil y m d * 86400000000000)%Z
              else None
          | None => None
          end
      | _, _, _ => None
      end
  end.

Definition sample_header : list string :=
  ["Date"; "Details"; "Amount"; "Currency"; "Debit/Credit"; "Status "].

(** A line all of whose cells are text. *)
Definition text_line (date details amount direction status : string)
    : RawRow :=
  mkRawRow (Text date) (Text details) (Text amount) (Text direction)
    (Text status).

Definition sample_file : RawFrame :=
  {| columns := sample_header;
     rows :=
       [ text_line "01 Jan 2025" "Starbucks Downtown" "10.50" "Debit" "SETTLED";
         text_line "02 Jan 2025" "Noon order" "1,234.56" "Debit" "REVERSED";
         text_line "28 Feb 2025" "Salary" "5,000.00" "Credit" "SETTLED" ] |}.



(** No amount of the file has a comma: [read_csv] reads the column as
    numbers. *)
Definition comma_free_file : RawFrame :=
  {| columns := sample_header;
     rows :=
       [ mkRawRow (Text "01 Jan 2025") (Text "Starbucks Downtown") Other
           (Text "Debit") (Text "SETTLED");
         mkRawRow (Text "02 Jan 2025") (Text "Noon order") Other
           (Text "Debit") (Text "REVERSED") ] |}.

(** The details of the second line are empty in the file. *)
Definition missing_details_file : RawFrame :=
  {| columns := sample_header;
     rows :=
       [ text_line "01 Jan 2025" "Starbucks Downtown" "1,050.00" "Debit"
           "SETTLED";
         mkRawRow (Text "02 Jan 2025") Missing (Text "20.00")
           (Text "Debit") (Text "SETTLED") ] |}.

Definition sample_rules : Ruleset :=
  [("Uncategorized", []); ("Food", ["starbucks"])].

Example amount_with_commas :
  plain_decimal (remove_commas "1,234.56") = Some (F64.of_decimal 123456 2).
Proof. reflexivity. Qed.

Example date_of_the_format :
  day_month_year "28 Feb 2025" = Some 1740700800000000000%Z.
Proof. reflexivity. Qed.

Example date_out_of_format : day_month_year "2025-02-28" = None.
Proof. reflexivity. Qed.

(** Line 47 raises on a column of numbers. *)
Example comma_free_amounts :
  load_transactions plain_decimal day_month_year sample_rules comma_free_file
  = None.
Proof. reflexivity. Qed.

(** Line 34 raises on a cell that is not text; it is not reached when
    no entry of the ruleset has keywords. *)
Example missing_details :
  load_transactions plain_decimal day_month_year sample_rules
    missing_details_file = None /\
  option_map (map row_Details)
    (load_transactions plain_decimal day_month_year [("Uncategorized", [])]
       missing_details_file)
  = Some [Text "Starbucks Downtown"; Missing].
Proof. split; reflexivity. Qed.




End Normalizer.
(* ================================================================== *)
(** ** The aggregator: the totals of [main] (lines 79-93, 104-105, 133) *)

Module Aggregator.

(** [Series.sum()]: 0.0 for a column without rows; otherwise the value
    of the library's floating-point summation of the column,
    [column_sum], taken on the amounts in row order.  How the library
    orders and rounds its additions is not fixed here. *)
Definition series_sum (column_sum : list float -> float)
    (amounts : list float) : float :=
  match amounts with
  | [] => F64.zero
  | _ :: _ => column_sum amounts
  end.

(** Lines 81-82. *)
Definition debits (df : DataFrame) : DataFrame :=
  filter (fun row => (DebitCredit row =? "Debit")%string) df.

Definition credits (df : DataFrame) : DataFrame :=
  filter (fun row => (DebitCredit row =? "Credit")%string) df.

(** Lines 89-93: the three figures of the overview. *)
Definition total_spending (column_sum : list float -> float)
    (df : DataFrame) : float :=
  series_sum column_sum (map Amount (debits df)).

Definition total_payments (column_sum : list float -> float)
    (df : DataFrame) : float :=
  series_sum column_sum (map Amount (credits df)).

Definition transactions (df : DataFrame) : nat := List.length (debits df).

Section GroupBy.

(** The keys of a grouping and their order. *)
Variable K : Type.
Variable cmp : K -> K -> comparison.
Hypothesis cmp_eq : forall x y, cmp x y = Eq <-> x = y.
Hypothesis cmp_antisym : forall x y, cmp y x = CompOpp (cmp x y).
Hypothesis cmp_trans :
  forall x y z, cmp x y = Lt -> cmp y z = Lt -> cmp x z = Lt.

Variable key : Transaction -> K.

Fixpoint insert_key (k : K) (keys : list K) : list K :=
  match keys with
  | [] => [k]
  | x :: rest =>
      match cmp k x with
      | Lt => k :: keys
      | Eq => keys
      | Gt => x :: insert_key k rest
      end
  end.

(** The distinct keys of the frame, ascending ([groupby] sorts the group
    keys). *)
Definition group_keys (df : DataFrame) : list K :=
  fold_right (fun row keys => insert_key (key row) keys) [] df.

Definition in_group (k : K) (row : Transaction) : bool :=
  match cmp (key row) k with
  | Eq => true
  | _ => false
  end.

(** The summation [groupby(...).sum()] applies to the amounts of one
    group: a value of the library, like [column_sum]. *)
Variable group_sum : list float -> float.

(** [df.groupby(key)["Amount"].sum().reset_index()]: one entry for each
    key, holding the library's sum of the amounts of the rows of that
    key, taken in row order. *)
Definition groupby_sum (df : DataFrame) : list (K * float) :=
  map (fun k => (k, group_sum (map Amount (filter (in_group k) df))))
      (group_keys df).

Lemma insert_key_In (k x : K) (keys : list K) :
  In x (insert_key k keys) <-> x = k \/ In x keys.
Proof.
  induction keys as [|y keys IH]; simpl.
  - intuition.
  - destruct (cmp k y) eqn:E; simpl.
    + apply cmp_eq in E. subst y. intuition.
    + intuition.
    + rewrite IH. intuition.
Qed.

Lemma insert_key_HdRel (x k : K) (keys : list K) :
  HdRel (fun a b => cmp a b = Lt) x keys -> cmp x k = Lt ->
  HdRel (fun a b => cmp a b = Lt) x (insert_key k keys).
Proof.
  intros H Hk. destruct keys as [|y keys]; simpl.
  - now constructor.
  - destruct (cmp k y); constructor; try assumption; now inversion H.
Qed.

Lemma insert_key_Sorted (k : K) (keys : list K) :
  Sorted (fun a b => cmp a b = Lt) keys ->
  Sorted (fun a b => cmp a b = Lt) (insert_key k keys).
Proof.
  induction keys as [|y keys IH]; intros H; simpl.
  - repeat constructor.
  - destruct (cmp k y) eqn:E.
    + exact H.
    + constructor; [exact H | now constructor].
    + inversion H as [|? ? Hs Hh]; subst. constructor; [now apply IH|].
      apply insert_key_HdRel; [exact Hh|].
      rewrite cmp_antisym, E. reflexivity.
Qed.

Lemma group_keys_In (df : DataFrame) (k : K) :
  In k (group_keys df) <-> exists row, In row df /\ key row = k.
Proof.
  induction df as [|r df IH]; simpl.
  - split; [intros [] | intros [row [[] _]]].
  - rewrite insert_key_In, IH. split.
    + intros [->|[row [Hin E]]]; [exists r | exists row]; auto.
    + intros [row [[<-|Hin] E]]; [left | right; exists row]; auto.
Qed.

Lemma group_keys_Sorted (df : DataFrame) :
  Sorted (fun a b => cmp a b = Lt) (group_keys df).
Proof.
  induction df as [|r df IH]; simpl; [constructor|].
  now apply insert_key_Sorted.
Qed.

Lemma in_group_eq (k : K) (row : Transaction) :
  in_group k row = true <-> key row = k.
Proof.
  unfold in_group. rewrite <- cmp_eq.
  destruct (cmp (key row) k); split; congruence.
Qed.


Lemma sorted_keys_NoDup (keys : list K) :
  Sorted (fun a b => cmp a b = Lt) keys -> NoDup keys.
Proof.
  intros H. apply Sorted_StronglySorted in H.
  - induction H as [|x keys Hs IH Hf]; constructor; [|exact IH].
    intros Hin. rewrite Forall_forall in Hf. specialize (Hf x Hin).
    assert (cmp x x = Eq) as E by now apply cmp_eq. congruence.
  - intros x y z. apply cmp_trans.
Qed.

Lemma groupby_sum_keys (df : DataFrame) :
  map fst (groupby_sum df) = group_keys df.
Proof.
  unfold groupby_sum. rewrite map_map. simpl. apply map_id.
Qed.

Lemma groupby_sum_In (df : DataFrame) (k : K) (total : float) :
  In (k, total) (groupby_sum df) <->
  (exists row, In row df /\ key row = k) /\
  total = group_sum (map Amount (filter (in_group k) df)).
Proof.
  unfold groupby_sum. rewrite in_map_iff. split.
  - intros [k' [E Hin]]. inversion E; subst.
    split; [now apply group_keys_In | reflexivity].
  - intros [Hrow ->]. exists k. split; [reflexivity|].
    now apply group_keys_In.
Qed.

End GroupBy.

(** *** Sorting by amount, descending *)

(** [x] may stand before [y] in descending order; a NaN goes last. *)
Definition sorts_before (x y : float) : bool :=
  F64.is_nan y || (negb (F64.is_nan x) && SFleb y x).

Section SortValues.

Variable K : Type.

Fixpoint insert_desc (entry : K * float) (sorted : list (K * float))
    : list (K * float) :=
  match sorted with
  | [] => [entry]
  | y :: rest =>
      if sorts_before (snd entry) (snd y)
      then entry :: sorted
      else y :: insert_desc entry rest
  end.

(** [sort_values("Amount", ascending=False)]; the order pandas gives to
    rows of equal amount is left open by every statement below. *)
Definition sort_values_desc (table : list (K * float)) : list (K * float) :=
  fold_right insert_desc [] table.

End SortValues.

Arguments insert_desc {K}.
Arguments sort_values_desc {K}.

(** Lines 104-105. *)
Definition category_totals (group_sum : list float -> float)
    (df : DataFrame) : list (string * float) :=
  sort_values_desc
    (groupby_sum string String.compare Category group_sum (debits df)).

(** Line 133. *)
Definition spending_over_time (group_sum : list float -> float)
    (df : DataFrame) : list (Z * float) :=
  groupby_sum Z Z.compare Date group_sum (debits df).

(** *** The orders used *)

Lemma string_compare_refl (s : string) : String.compare s s = Eq.
Proof.
  induction s as [|c s IH]; simpl; [reflexivity|].
  unfold Ascii.compare. now rewrite N.compare_refl.
Qed.

Lemma string_compare_eq (x y : string) : String.compare x y = Eq <-> x = y.
Proof.
  split; [apply String.compare_eq_iff | intros ->; apply string_compare_refl].
Qed.

Lemma string_compare_antisym (x y : string) :
  String.compare y x = CompOpp (String.compare x y).
Proof. apply String.compare_antisym. Qed.

Lemma string_compare_trans (x y z : string) :
  String.compare x y = Lt -> String.compare y z = Lt ->
  String.compare x z = Lt.
Proof.
  revert y z. induction x as [|a x IH]; intros [|b y] [|c z]; simpl;
    try discriminate; try reflexivity.
  destruct (Ascii.compare a b) eqn:Eab; try discriminate.
  - apply Ascii.compare_eq_iff in Eab. subst b.
    destruct (Ascii.compare a c); try discriminate; try reflexivity.
    apply IH.
  - intros _. destruct (Ascii.compare b c) eqn:Ebc; try discriminate.
    + apply Ascii.compare_eq_iff in Ebc. subst c. now rewrite Eab.
    + intros _. unfold Ascii.compare in *.
      rewrite N.compare_lt_iff in *.
      assert (N_of_ascii a < N_of_ascii c)%N as H by lia.
      apply N.compare_lt_iff in H. now rewrite H.
Qed.

Lemma Z_compare_eq (x y : Z) : Z.compare x y = Eq <-> x = y.
Proof. apply Z.compare_eq_iff. Qed.

Lemma Z_compare_antisym (x y : Z) : Z.compare y x = CompOpp (Z.compare x y).
Proof. apply Z.compare_antisym. Qed.

Lemma Z_compare_trans (x y z : Z) :
  Z.compare x y = Lt -> Z.compare y z = Lt -> Z.compare x z = Lt.
Proof. rewrite !Z.compare_lt_iff. lia. Qed.

Lemma SFcompare_antisym (x y : float) :
  SFcompare y x = option_map CompOpp (SFcompare x y).
Proof.
  destruct x as [sx|sx| |sx mx ex], y as [sy|sy| |sy my ey]; simpl;
    try reflexivity; try (destruct sx; reflexivity);
    try (destruct sy; reflexivity);
    try (destruct sx, sy; reflexivity).
  assert (Pos.compare_cont Eq my mx = CompOpp (Pos.compare_cont Eq mx my)) as Hm
    by (symmetry; apply (Pos.compare_cont_antisym mx my Eq)).
  destruct sx, sy; simpl; try reflexivity;
    rewrite (Z.compare_antisym ex ey), Hm;
    destruct (ex ?= ey)%Z; simpl; try reflexivity;
    destruct (Pos.compare_cont Eq mx my); reflexivity.
Qed.

Lemma SFcompare_not_nan (x y : float) :
  F64.is_nan x = false -> F64.is_nan y = false ->
  exists c, SFcompare x y = Some c.
Proof.
  destruct x, y; simpl; intros Hx Hy; try discriminate; eauto.
Qed.

Lemma sorts_before_total (x y : float) :
  sorts_before x y = false -> sorts_before y x = true.
Proof.
  unfold sorts_before, SFleb. rewrite (SFcompare_antisym x y).
  destruct (F64.is_nan y) eqn:Ny; [discriminate|].
  destruct (F64.is_nan x) eqn:Nx; [reflexivity|].
  destruct (SFcompare_not_nan x y Nx Ny) as [c ->].
  destruct c; simpl; congruence.
Qed.


Lemma insert_desc_Permutation {K : Type} (entry : K * float)
    (sorted : list (K * float)) :
  Permutation (entry :: sorted) (insert_desc entry sorted).
Proof.
  induction sorted as [|y rest IH]; simpl; [reflexivity|].
  destruct (sorts_before (snd entry) (snd y)); [reflexivity|].
  rewrite perm_swap. now constructor.
Qed.

Lemma sort_values_desc_Permutation {K : Type} (table : list (K * float)) :
  Permutation table (sort_values_desc table).
Proof.
  induction table as [|e table IH]; simpl; [constructor|].
  rewrite <- insert_desc_Permutation. now constructor.
Qed.

Lemma insert_desc_Sorted {K : Type} (entry : K * float)
    (sorted : list (K * float)) :
  Sorted (fun a b => sorts_before (snd a) (snd b) = true) sorted ->
  Sorted (fun a b => sorts_before (snd a) (snd b) = true)
         (insert_desc entry sorted).
Proof.
  induction sorted as [|y rest IH]; intros H; simpl.
  - repeat constructor.
  - destruct (sorts_before (snd entry) (snd y)) eqn:E.
    + constructor; [exact H | now constructor].
    + inversion H as [|? ? Hs Hh]; subst. constructor; [now apply IH|].
      apply sorts_before_total in E.
      destruct rest as [|z rest]; simpl.
      * now constructor.
      * destruct (sorts_before (snd entry) (snd z)); constructor;
          [exact E | now inversion Hh].
Qed.

Lemma sort_values_desc_Sorted {K : Type} (table : list (K * float)) :
  Sorted (fun a b => sorts_before (snd a) (snd b) = true)
         (sort_values_desc table).
Proof.
  induction table as [|e table IH]; simpl; [constructor|].
  now apply insert_desc_Sorted.
Qed.

Lemma filter_filter {A : Type} (f g : A -> bool) (l : list A) :
  filter f (filter g l) = filter (fun x => g x && f x) l.
Proof.
  induction l as [|x l IH]; simpl; [reflexivity|].
  destruct (g x); simpl; [destruct (f x)|]; now rewrite IH.
Qed.

Lemma in_group_Category (c : string) (row : Transaction) :
  in_group string String.compare Category c row = (Category row =? c)%string.
Proof.
  destruct (Category row =? c)%string eqn:E.
  - apply String.eqb_eq in E.
    now apply (in_group_eq string String.compare string_compare_eq).
  - apply String.eqb_neq in E.
    destruct (in_group string String.compare Category c row) eqn:G;
      [|reflexivity].
    now apply (in_group_eq string String.compare string_compare_eq) in G.
Qed.

Lemma in_group_Date (d : Z) (row : Transaction) :
  in_group Z Z.compare Date d row = (Date row =? d)%Z.
Proof.
  unfold in_group. rewrite Z.eqb_compare. reflexivity.
Qed.

Lemma debits_In (df : DataFrame) (row : Transaction) :
  In row (debits df) <-> In row df /\ DebitCredit row = "Debit".
Proof. unfold debits. now rewrite filter_In, String.eqb_eq. Qed.

(** *** What a binary64 value can hold *)

Lemma pow2_mod5 (k : nat) : ((2 ^ Z.of_nat k) mod 5 <> 0)%Z.
Proof.
  induction k as [|k IH]; [discriminate|].
  rewrite Nat2Z.inj_succ, Z.pow_succ_r by lia.
  revert IH. generalize (2 ^ Z.of_nat k)%Z. intros p.
  Z.div_mod_to_equations. lia.
Qed.

(** No binary64 value is three tenths. *)
Lemma value_not_three_tenths (x : float) : ~ (F64.value x == 3 # 10)%Q.
Proof.
  destruct x as [s|s| |s m e]; try (unfold F64.value, Qeq; simpl; lia).
  destruct e as [|p|p]; unfold F64.value, Qeq; cbn [Qnum Qden inject_Z].
  - destruct s; lia.
  - generalize ((if s then Z.neg m else Z.pos m) * Z.pow_pos 2 p)%Z. lia.
  - rewrite Pos2Z.inj_pow. rewrite <- (positive_nat_Z p).
    pose proof (pow2_mod5 (Pos.to_nat p)) as H. revert H.
    generalize (2 ^ Z.of_nat (Pos.to_nat p))%Z.
    generalize (if s then Z.neg m else Z.pos m). intros n q.
    Z.div_mod_to_equations. lia.
Qed.

Lemma digits2_pos_size (m : positive) : digits2_pos m = Pos.size m.
Proof. induction m; simpl; congruence. Qed.

(** The mantissa of a binary64 value has at most 53 bits. *)
Lemma valid_mantissa (s : bool) (m : positive) (e : Z) :
  valid_binary F64.prec F64.emax (S754_finite s m e) = true ->
  (Z.pos m < 2 ^ 53)%Z.
Proof.
  unfold valid_binary, bounded, canonical_mantissa, fexp, emin, F64.prec,
    F64.emax.
  intros H. apply andb_prop in H. destruct H as [H _].
  apply Z.eqb_eq in H. rewrite digits2_pos_size in H.
  pose proof (Pos.size_gt m) as Hs.
  assert (Pos.size m <= 53)%positive as Hle by lia.
  apply Pos2Z.pos_lt_pos in Hs. rewrite Pos2Z.inj_pow in Hs.
  apply Z.lt_le_trans with (m := (2 ^ Z.pos (Pos.size m))%Z); [exact Hs|].
  apply Z.pow_le_mono_r; lia.
Qed.

(** An odd multiple of [2^-55] above [2^-2] is no binary64 value. *)
Lemma value_not_odd_55 (x : float) (n : Z) :
  valid_binary F64.prec F64.emax x = true ->
  (2 ^ 53 < 2 * n + 1)%Z ->
  ~ (F64.value x == (2 * n + 1) # (2 ^ 55))%Q.
Proof.
  intros Hv Hn.
  destruct x as [s|s| |s m e];
    try (unfold F64.value, Qeq; cbn [Qnum Qden]; lia).
  pose proof (valid_mantissa s m e Hv) as Hm.
  destruct e as [|p|p]; unfold F64.value, Qeq; cbn [Qnum Qden inject_Z];
    change (Z.pos (2 ^ 55)) with (2 ^ 55)%Z.
  - destruct s; lia.
  - generalize (Z.pow_pos 2 p). intros q. destruct s; lia.
  - rewrite Pos2Z.inj_pow.
    assert (0 < 2 ^ Z.pos p)%Z as Hpos by (apply Z.pow_pos_nonneg; lia).
    destruct s; [lia|].
    destruct (Z_le_gt_dec (Z.pos p) 54) as [Hp|Hp].
    + replace (2 ^ 55)%Z with (2 * 2 ^ (54 - Z.pos p) * 2 ^ Z.pos p)%Z.
      * revert Hpos. generalize (2 ^ (54 - Z.pos p))%Z.
        generalize (2 ^ Z.pos p)%Z. intros q r Hq E.
        replace (Z.pos m * (2 * r * q))%Z with (Z.pos m * (2 * r) * q)%Z in E
          by ring.
        apply Z.mul_reg_r in E; lia.
      * rewrite <- Z.mul_assoc, <- Z.pow_add_r by lia.
        replace (54 - Z.pos p + Z.pos p)%Z with 54%Z by lia. reflexivity.
    + replace (2 ^ Z.pos p)%Z with (2 ^ (Z.pos p - 55) * 2 ^ 55)%Z.
      * assert (0 < 2 ^ (Z.pos p - 55))%Z as Hq
          by (apply Z.pow_pos_nonneg; lia).
        revert Hq. generalize (2 ^ (Z.pos p - 55))%Z. intros q Hq E.
        replace ((2 * n + 1) * (q * 2 ^ 55))%Z
          with ((2 * n + 1) * q * 2 ^ 55)%Z in E by ring.
        apply Z.mul_reg_r in E; nia.
      * rewrite <- Z.pow_add_r by lia. f_equal. lia.
Qed.

(** *** A statement where rounding shows *)

Definition drift_file : Normalizer.RawFrame :=
  {| Normalizer.columns := Normalizer.sample_header;
     Normalizer.rows :=
       [ Normalizer.text_line "01 Jan 2025" "Starbucks Downtown" "0.10"
           "Debit" "SETTLED";
         Normalizer.text_line "02 Jan 2025" "Starbucks Marina" "0.20"
           "Debit" "SETTLED";
         Normalizer.text_line "03 Jan 2025" "Salary" "1,000.00"
           "Credit" "SETTLED" ] |}.

(** C5, as stated, fails.  The amounts 0.10 and 0.20 of one category are
    parsed to binary64 and their total is the library's sum of the two
    parsed amounts, a binary64 value again: plain binary64 addition does
    not give the float of 0.30 for them, and no binary64 value at all
    is their exact sum, or the decimal 3/10.  The count that is computed
    is that of the Debit rows (2 here, for 1 Credit row). *)
Lemma sums_are_rounded :
  exists rows df a b c,
    Normalizer.load_transactions Normalizer.plain_decimal
      Normalizer.day_month_year Normalizer.sample_rules drift_file
    = Some rows /\
    Frames.transactions_of rows = Some df /\
    map Amount df = [a; b; c] /\
    a = F64.of_decimal 10 2 /\ b = F64.of_decimal 20 2 /\
    (forall group_sum,
       category_totals group_sum df = [("Food", group_sum [a; b])]) /\
    transactions df = 2 /\ List.length (credits df) = 1 /\
    F64.add a b <> F64.of_decimal 30 2 /\
    (forall total,
       valid_binary F64.prec F64.emax total = true ->
       ~ (F64.value total == F64.value a + F64.value b)%Q) /\
    (forall total, ~ (F64.value total == 3 # 10)%Q).
Proof.
  do 5 eexists.
  split; [vm_compute; reflexivity|].
  split; [vm_compute; reflexivity|].
  split; [vm_compute; reflexivity|].
  split; [vm_compute; reflexivity|].
  split; [vm_compute; reflexivity|].
  split; [intros group_sum; reflexivity|].
  split; [vm_compute; reflexivity|].
  split; [vm_compute; reflexivity|].
  split; [vm_compute; discriminate|].
  split; [|exact value_not_three_tenths].
  intros total Hv H.
  apply (value_not_odd_55 total 5404319552844595 Hv); [lia|].
  rewrite H. vm_compute. reflexivity.
Qed.

(** C5, amended.  The totals are binary64 values, the results of the
    library's floating-point summations, not exact decimal sums.  Per
    category: one entry for each category that has a Debit row, holding
    the library's sum of the amounts of its Debit rows taken in row
    order, the entries in descending order of the sum (a NaN sum last).
    Per date: one entry for each date that has a Debit row, holding the
    sum of the Debit amounts of that date, in strictly ascending order of
    the date.  The Credit rows are summed separately; the count that is
    computed is the number of Debit rows. *)
Theorem aggregates_binary64 (group_sum column_sum : list float -> float)
    (df : DataFrame) :
  (Sorted (fun a b => sorts_before (snd a) (snd b) = true)
     (category_totals group_sum df) /\
   NoDup (map fst (category_totals group_sum df)) /\
   forall c total,
     In (c, total) (category_totals group_sum df) <->
     (exists row, In row df /\ DebitCredit row = "Debit" /\ Category row = c) /\
     total = group_sum (map Amount
               (filter (fun row => (DebitCredit row =? "Debit")%string
                                   && (Category row =? c)%string) df))) /\
  (Sorted Z.lt (map fst (spending_over_time group_sum df)) /\
   forall d total,
     In (d, total) (spending_over_time group_sum df) <->
     (exists row, In row df /\ DebitCredit row = "Debit" /\ Date row = d) /\
     total = group_sum (map Amount
               (filter (fun row => (DebitCredit row =? "Debit")%string
                                   && (Date row =? d)%Z) df))) /\
  total_payments column_sum df
  = series_sum column_sum (map Amount
      (filter (fun row => (DebitCredit row =? "Credit")%string) df)) /\
  transactions df
  = List.length (filter (fun row => (DebitCredit row =? "Debit")%string) df).
Proof.
  split; [|split; [|split; reflexivity]].
  - unfold category_totals.
    pose proof (sort_values_desc_Permutation
                  (groupby_sum string String.compare Category group_sum
                     (debits df)))
      as Hperm.
    split; [apply sort_values_desc_Sorted|]. split.
    + apply (Permutation_NoDup (Permutation_map fst Hperm)).
      rewrite groupby_sum_keys.
      apply (sorted_keys_NoDup string String.compare string_compare_eq
               string_compare_trans).
      apply (group_keys_Sorted string String.compare string_compare_antisym).
    + intros c total. split.
      * intros Hin. apply (Permutation_in _ (Permutation_sym Hperm)) in Hin.
        apply (groupby_sum_In string String.compare string_compare_eq) in Hin.
        destruct Hin as [[row [Hr Hk]] ->]. apply debits_In in Hr. split.
        -- exists row. tauto.
        -- unfold debits. rewrite filter_filter. do 2 f_equal.
           apply filter_ext. intros r. now rewrite in_group_Category.
      * intros [[row [Hr [Hd Hc]]] ->]. apply (Permutation_in _ Hperm).
        apply (groupby_sum_In string String.compare string_compare_eq).
        split.
        -- exists row. split; [now apply debits_In | exact Hc].
        -- unfold debits. rewrite filter_filter. do 2 f_equal.
           apply filter_ext. intros r. now rewrite in_group_Category.
  - unfold spending_over_time. split.
    + rewrite groupby_sum_keys.
      apply (group_keys_Sorted Z Z.compare Z_compare_antisym).
    + intros d total.
      rewrite (groupby_sum_In Z Z.compare Z_compare_eq). split.
      * intros [[row [Hr Hk]] ->]. apply debits_In in Hr. split.
        -- exists row. tauto.
        -- unfold debits. rewrite filter_filter. do 2 f_equal.
           apply filter_ext. intros r. now rewrite in_group_Date.
      * intros [[row [Hr [Hd Hc]]] ->]. split.
        -- exists row. split; [now apply debits_In | exact Hc].
        -- unfold debits. rewrite filter_filter. do 2 f_equal.
           apply filter_ext. intros r. now rewrite in_group_Date.
Qed.

End Aggregator.
(* ================================================================== *)
(** ** Further facts about the string operations *)

Module PyStrFacts.
Import PyStr.

Lemma isspace_lower_char (c : ascii) : isspace (lower_char c) = isspace c.
Proof.
  destruct c as [b0 b1 b2 b3 b4 b5 b6 b7].
  destruct b0, b1, b2, b3, b4, b5, b6, b7; reflexivity.
Qed.

Lemma lower_char_idempotent (c : ascii) :
  lower_char (lower_char c) = lower_char c.
Proof.
  destruct c as [b0 b1 b2 b3 b4 b5 b6 b7].
  destruct b0, b1, b2, b3, b4, b5, b6, b7; reflexivity.
Qed.

Lemma lower_idempotent (s : string) : lower (lower s) = lower s.
Proof.
  induction s as [|c s IH]; simpl; [reflexivity|].
  now rewrite lower_char_idempotent, IH.
Qed.

Lemma lstrip_lower (s : string) : lstrip (lower s) = lower (lstrip s).
Proof.
  induction s as [|c s IH]; simpl; [reflexivity|].
  rewrite isspace_lower_char. now destruct (isspace c).
Qed.

Lemma rstrip_lower (s : string) : rstrip (lower s) = lower (rstrip s).
Proof.
  induction s as [|c s IH]; simpl; [reflexivity|].
  rewrite IH, isspace_lower_char.
  destruct (rstrip s); simpl; [now destruct (isspace c) | reflexivity].
Qed.

(** Lower-casing and stripping commute. *)
Lemma strip_lower (s : string) : strip (lower s) = lower (strip s).
Proof. unfold strip. now rewrite lstrip_lower, rstrip_lower. Qed.

Lemma rstrip_idempotent (s : string) : rstrip (rstrip s) = rstrip s.
Proof.
  induction s as [|c s IH]; simpl; [reflexivity|].
  destruct (rstrip s) as [|d r] eqn:E.
  - destruct (isspace c) eqn:Hc; simpl; [reflexivity | now rewrite Hc].
  - change (rstrip (String c (String d r))) with
      (match rstrip (String d r) with
       | EmptyString => if isspace c then EmptyString else String c EmptyString
       | r' => String c r'
       end).
    now rewrite IH.
Qed.

(** A string that begins with no whitespace. *)
Definition starts_clean (s : string) : Prop :=
  match s with
  | EmptyString => True
  | String c _ => isspace c = false
  end.

Lemma lstrip_starts_clean (s : string) : starts_clean (lstrip s).
Proof.
  induction s as [|c s IH]; simpl; [exact I|].
  destruct (isspace c) eqn:Hc; [exact IH | exact Hc].
Qed.

Lemma lstrip_clean (s : string) : starts_clean s -> lstrip s = s.
Proof. destruct s as [|c s]; simpl; [reflexivity | now intros ->]. Qed.

Lemma rstrip_starts_clean (s : string) :
  starts_clean s -> starts_clean (rstrip s).
Proof.
  destruct s as [|c s]; simpl; [trivial|]. intros Hc.
  destruct (rstrip s); [now rewrite Hc | exact Hc].
Qed.

Lemma strip_idempotent (s : string) : strip (strip s) = strip s.
Proof.
  unfold strip.
  rewrite (lstrip_clean (rstrip (lstrip s))).
  - apply rstrip_idempotent.
  - apply rstrip_starts_clean, lstrip_starts_clean.
Qed.

Lemma contains_refl (s : string) : contains s s = true.
Proof.
  apply contains_Substring. exists EmptyString, EmptyString. simpl.
  induction s as [|c s IH]; simpl; [reflexivity | now rewrite <- IH].
Qed.

End PyStrFacts.

(* ================================================================== *)
(** ** Further facts about the categorizer *)

Module CategorizerFacts.
Import PyStr Categorizer.

(** An entry the guard of line 28 passes over. *)
Definition skipped (entry : string * list string) : bool :=
  (fst entry =? "Uncategorized")%string || is_empty (snd entry).

Lemma fires_skipped (df : DataFrame) (row : Transaction)
    (entry : string * list string) :
  skipped entry = true -> fires df row entry = false.
Proof. unfold fires, skipped. now intros ->. Qed.

Lemma fires_own (df : DataFrame) (row : Transaction)
    (entry : string * list string) :
  NoDup (map Index df) -> In row df ->
  fires df row entry
  = negb (skipped entry) && row_matches (lowered (snd entry)) row.
Proof.
  intros Hnd Hin. unfold fires, skipped.
  now rewrite (label_matches_own _ df row Hnd Hin).
Qed.

Lemma assigned_valid (df : DataFrame) (rs : Ruleset) (row : Transaction)
    (c : string) :
  In c (assigned df rs row) ->
  c <> "Uncategorized" /\ exists keywords, In (c, keywords) rs /\ keywords <> [].
Proof.
  unfold assigned. rewrite in_map_iff. intros [[c' k] [E H]].
  simpl in E. subst c'. apply filter_In in H. destruct H as [Hin F].
  split; [exact (fires_not_default df row (c, k) F)|].
  exists k. split; [exact Hin|].
  unfold fires in F. simpl in F. destruct k; [|discriminate].
  now rewrite orb_true_r in F.
Qed.

(** What the matching reads of a frame, up to case and surrounding
    whitespace of the details. *)
Definition matching_view (df : DataFrame) : list (nat * string) :=
  map (fun row => (Index row, strip (lower (Details row)))) df.

(** What the matching reads of a ruleset. *)
Definition rules_view (rs : Ruleset) : list (string * list string) :=
  map (fun entry => (fst entry, lowered (snd entry))) rs.

Lemma label_matches_view (lowered_keywords : list string) (df df' : DataFrame)
    (row row' : Transaction) :
  matching_view df = matching_view df' -> Index row = Index row' ->
  label_matches lowered_keywords df row
  = label_matches lowered_keywords df' row'.
Proof.
  unfold label_matches, matching_view. intros H Hi. rewrite Hi. clear Hi.
  revert df' H. induction df as [|r df IH]; intros [|r' df'] H; simpl in *;
    try discriminate; [reflexivity|].
  inversion H as [[Hi Hd Hs]]. rewrite (IH df' Hs), Hi.
  unfold row_matches. now rewrite Hd.
Qed.

Lemma assigned_view (df df' : DataFrame) (rs rs' : Ruleset)
    (row row' : Transaction) :
  matching_view df = matching_view df' -> rules_view rs = rules_view rs' ->
  Index row = Index row' ->
  assigned df rs row = assigned df' rs' row'.
Proof.
  intros Hdf Hrs Hi. unfold assigned. revert rs' Hrs.
  induction rs as [|[c k] rs IH]; intros [|[c' k'] rs'] Hrs; simpl in *;
    try discriminate; [reflexivity|].
  inversion Hrs as [[Hc Hk Hrest]]. subst c'.
  assert (fires df row (c, k) = fires df' row' (c, k')) as ->.
  { unfold fires. cbn [fst snd].
    rewrite <- Hk, (label_matches_view _ df df' row row' Hdf Hi).
    f_equal. f_equal. f_equal.
    unfold lowered in Hk. destruct k, k'; simpl in *; congruence. }
  destruct (fires df' row' (c, k')); simpl; now rewrite (IH rs' Hrest).
Qed.

(** X1. The categorizer touches nothing but the Category column: the
    output has the rows of the input, in the same order, with every other
    cell as it was. *)
Theorem categorize_touches_only_category (categories : Ruleset)
    (df : DataFrame) (c : string) :
  List.length (categorize_transactions categories df) = List.length df /\
  map (set_Category c) (categorize_transactions categories df)
  = map (set_Category c) df.
Proof.
  rewrite categorize_rows. split; [apply length_map|].
  rewrite map_map. now apply map_ext.
Qed.

(** X2. Every category the categorizer hands out is "Uncategorized" or
    the name of an entry of the ruleset whose keyword list is not empty. *)
Theorem categorize_valid_category (categories : Ruleset) (df : DataFrame)
    (out : Transaction) :
  In out (categorize_transactions categories df) ->
  Category out = "Uncategorized" \/
  (Category out <> "Uncategorized" /\
   exists keywords, In (Category out, keywords) categories /\ keywords <> []).
Proof.
  intros H. apply categorize_In in H. destruct H as [row [_ ->]]. simpl.
  destruct (assigned df categories row) as [|c l] eqn:E; [now left|].
  right. apply (assigned_valid df categories row).
  rewrite E. apply last_In. discriminate.
Qed.

Lemma categorize_valid_category_witness :
  Category (set_Category "Food" (sample_row 0 "Starbucks Downtown"))
  = "Uncategorized" \/
  (Category (set_Category "Food" (sample_row 0 "Starbucks Downtown"))
   <> "Uncategorized" /\
   exists keywords,
     In (Category (set_Category "Food" (sample_row 0 "Starbucks Downtown")),
         keywords)
        [("Uncategorized", []); ("Food", ["starbucks"])] /\
     keywords <> []).
Proof.
  apply (categorize_valid_category
           [("Uncategorized", []); ("Food", ["starbucks"])]
           [sample_row 0 "Starbucks Downtown"]).
  vm_compute. now left.
Defined.

(** X3. What the Category column held before the call has no influence
    on the result. *)
Theorem categorize_ignores_prior_category (categories : Ruleset)
    (df : DataFrame) (prior : Transaction -> string) :
  categorize_transactions categories
    (map (fun row => set_Category (prior row) row) df)
  = categorize_transactions categories df.
Proof.
  rewrite !categorize_rows, map_map. apply map_ext. intros row.
  rewrite assigned_set_Category.
  now rewrite (assigned_shape _ df categories row (shape_set_Category prior df)).
Qed.

(** X4. An entry named "Uncategorized", whatever its keywords, and an
    entry without keywords can be taken out of the ruleset without
    changing the result. *)
Theorem categorize_skips_entry (rs1 : Ruleset) (category : string)
    (keywords : list string) (rs2 : Ruleset) (df : DataFrame) :
  category = "Uncategorized" \/ keywords = [] ->
  categorize_transactions (rs1 ++ (category, keywords) :: rs2) df
  = categorize_transactions (rs1 ++ rs2) df.
Proof.
  intros H. rewrite !categorize_rows. apply map_ext. intros row.
  rewrite !assigned_app. do 3 f_equal.
  unfold assigned. simpl filter.
  rewrite (fires_skipped df row (category, keywords)); [reflexivity|].
  unfold skipped. simpl. destruct H as [->| ->]; [reflexivity|].
  apply orb_true_r.
Qed.

Lemma categorize_skips_entry_witness :
  categorize_transactions
    ([("Food", ["starbucks"])] ++ ("Uncategorized", ["starbucks"]) :: [])
    [sample_row 0 "Starbucks Downtown"]
  = categorize_transactions ([("Food", ["starbucks"])] ++ [])
      [sample_row 0 "Starbucks Downtown"].
Proof.
  apply (categorize_skips_entry [("Food", ["starbucks"])] "Uncategorized"
           ["starbucks"] [] [sample_row 0 "Starbucks Downtown"]).
  now left.
Defined.

(** X5. On a frame with distinct row labels the rows are categorized
    independently of each other: categorizing two parts of the frame
    separately gives the parts of the categorized frame. *)
Theorem categorize_app (categories : Ruleset) (df1 df2 : DataFrame) :
  NoDup (map Index (df1 ++ df2)) ->
  categorize_transactions categories (df1 ++ df2)
  = categorize_transactions categories df1
    ++ categorize_transactions categories df2.
Proof.
  intros Hnd. rewrite !categorize_rows, map_app.
  assert (Hnd1 : NoDup (map Index df1)).
  { rewrite map_app in Hnd. now apply NoDup_app_remove_r in Hnd. }
  assert (Hnd2 : NoDup (map Index df2)).
  { rewrite map_app in Hnd. now apply NoDup_app_remove_l in Hnd. }
  f_equal; apply map_ext_in; intros row Hin; do 2 f_equal;
    unfold assigned; apply f_equal; apply filter_ext; intros entry.
  - rewrite (fires_own (df1 ++ df2) row entry Hnd);
      [|apply in_or_app; now left].
    now rewrite (fires_own df1 row entry Hnd1 Hin).
  - rewrite (fires_own (df1 ++ df2) row entry Hnd);
      [|apply in_or_app; now right].
    now rewrite (fires_own df2 row entry Hnd2 Hin).
Qed.

Lemma categorize_app_witness :
  categorize_transactions [("Food", ["starbucks"])]
    ([sample_row 0 "Starbucks Downtown"] ++ [sample_row 1 "Salik toll"])
  = categorize_transactions [("Food", ["starbucks"])]
      [sample_row 0 "Starbucks Downtown"]
    ++ categorize_transactions [("Food", ["starbucks"])]
         [sample_row 1 "Salik toll"].
Proof.
  apply (categorize_app [("Food", ["starbucks"])]
           [sample_row 0 "Starbucks Downtown"] [sample_row 1 "Salik toll"]).
  repeat constructor; simpl; intuition discriminate.
Defined.

(** X6. The categories depend on the details and on the keywords only up
    to case and surrounding whitespace: two frames with the same labels
    whose details agree once lower-cased and stripped, and two rulesets
    with the same names whose keywords agree once lower-cased and
    stripped, give the same column of categories. *)
Theorem categorize_case_insensitive (rs rs' : Ruleset) (df df' : DataFrame) :
  matching_view df = matching_view df' ->
  rules_view rs = rules_view rs' ->
  map Category (categorize_transactions rs df)
  = map Category (categorize_transactions rs' df').
Proof.
  intros Hdf Hrs. rewrite !categorize_rows, !map_map. simpl.
  assert (Hgen : forall l l',
            map (fun row => (Index row, strip (lower (Details row)))) l
            = map (fun row => (Index row, strip (lower (Details row)))) l' ->
            map (fun row => last (assigned df rs row) "Uncategorized") l
            = map (fun row => last (assigned df' rs' row) "Uncategorized") l').
  { induction l as [|r l IH]; intros [|r' l'] H; simpl in *;
      try discriminate; [reflexivity|].
    inversion H as [[Hi Hd Hs]].
    now rewrite (assigned_view df df' rs rs' r r' Hdf Hrs Hi), (IH l' Hs). }
  now apply Hgen.
Qed.

Lemma categorize_case_insensitive_witness :
  map Category
    (categorize_transactions [("Transport", ["uber"])]
       [sample_row 0 "UBER EATS DUBAI"])
  = map Category
      (categorize_transactions [("Transport", [" Uber "])]
         [sample_row 0 "  uber eats dubai "]).
Proof.
  apply (categorize_case_insensitive [("Transport", ["uber"])]
           [("Transport", [" Uber "])] [sample_row 0 "UBER EATS DUBAI"]
           [sample_row 0 "  uber eats dubai "]); reflexivity.
Defined.

End CategorizerFacts.

(* ================================================================== *)
(** ** The session: start of a run and category creation *)

Module SessionFacts.
Import PyStr Feedback.

(** Lines 11-18, executed at the start of every run of the script:
    [session] is the [categories] entry of the session state when there
    is one, [file] the content of [categories.json] when the file
    exists.  The file, when present, replaces what the session held. *)
Definition startup (session : option Ruleset) (file : option Ruleset) : Session :=
  let categories :=
    match session with
    | None => [("Uncategorized", [])]
    | Some rs => rs
    end in
  match file with
  | Some stored => {| categories := stored; category_file := file |}
  | None => {| categories := categories; category_file := None |}
  end.

(** The next run of the script, over the state the last one left. *)
Definition rerun (st : Session) : Session :=
  startup (Some (categories st)) (category_file st).

(** [name in categories] for the dictionary. *)
Definition has_key (name : string) (rs : Ruleset) : bool :=
  existsb (fun entry => (fst entry =? name)%string) rs.

(** How the "Add Category" button ends (lines 192-199). *)
Inductive Created : Type :=
| Added
| AlreadyExists
| Ignored.

(** Lines 192-199: [categories[new_category] = []] puts the new key
    last. *)
Definition create_category (new_category : string) (st : Session)
    : Created * Session :=
  if truthy new_category && negb (has_key new_category (categories st)) then
    let st := {| categories := categories st ++ [(new_category, [])];
                 category_file := category_file st |} in
    (Added, save_categories st)
  else if has_key new_category (categories st) then (AlreadyExists, st)
  else (Ignored, st).

(** The session state agrees with the file, as far as there is one. *)
Definition Consistent (st : Session) : Prop :=
  category_file st = None \/ category_file st = Some (categories st).

(** A ruleset as the program builds it: distinct names, keyword lists
    without repetition, every keyword non-empty and stripped. *)
Definition Tidy (rs : Ruleset) : Prop :=
  NoDup (map fst rs) /\
  Forall (fun entry =>
            NoDup (snd entry) /\
            Forall (fun k => k <> EmptyString /\ strip k = k) (snd entry)) rs.

Lemma has_key_lookup (name : string) (rs : Ruleset) :
  has_key name rs = true <-> lookup name rs <> None.
Proof.
  unfold has_key. induction rs as [|[c k] rs IH]; simpl.
  - split; [discriminate | congruence].
  - destruct (c =? name)%string; simpl; [split; [discriminate | reflexivity]|].
    exact IH.
Qed.

Lemma has_key_In (name : string) (rs : Ruleset) :
  has_key name rs = true <-> In name (map fst rs).
Proof.
  unfold has_key. rewrite existsb_exists, in_map_iff. split.
  - intros [e [Hin E]]. apply String.eqb_eq in E. now exists e.
  - intros [e [E Hin]]. exists e. split; [exact Hin|].
    now apply String.eqb_eq.
Qed.

Lemma lookup_In (c : string) (rs : Ruleset) (k : list string) :
  lookup c rs = Some k -> In (c, k) rs.
Proof.
  induction rs as [|[c' k'] rs IH]; simpl; [discriminate|].
  destruct (c' =? c)%string eqn:E.
  - apply String.eqb_eq in E. intros H. inversion H. subst. now left.
  - intros H. right. now apply IH.
Qed.

Lemma lookup_NoDup (c : string) (rs : Ruleset) (k : list string) :
  NoDup (map fst rs) -> In (c, k) rs -> lookup c rs = Some k.
Proof.
  induction rs as [|[c' k'] rs IH]; simpl; [intros _ []|].
  intros Hnd [E|Hin].
  - inversion E. subst. now rewrite String.eqb_refl.
  - inversion Hnd as [|? ? Hnotin Hnd']; subst.
    destruct (c' =? c)%string eqn:E.
    + apply String.eqb_eq in E. subst c'. exfalso. apply Hnotin.
      apply in_map_iff. now exists (c, k).
    + now apply IH.
Qed.

Lemma lookup_app_new (c name : string) (rs : Ruleset) :
  lookup name rs = None ->
  lookup c (rs ++ [(name, [])])
  = if (name =? c)%string then Some [] else lookup c rs.
Proof.
  induction rs as [|[c' k'] rs IH]; simpl; [reflexivity|].
  destruct (c' =? name)%string eqn:E; [discriminate|]. intros H.
  destruct (c' =? c)%string eqn:E'.
  - apply String.eqb_eq in E'. subst c'. now rewrite String.eqb_sym, E.
  - now apply IH.
Qed.

Lemma create_category_added (name : string) (st : Session) :
  name <> EmptyString -> lookup name (categories st) = None ->
  create_category name st
  = (Added,
     {| categories := categories st ++ [(name, [])];
        category_file := Some (categories st ++ [(name, [])]) |}).
Proof.
  intros Hne Hl. unfold create_category.
  apply truthy_nonempty in Hne. rewrite Hne.
  destruct (has_key name (categories st)) eqn:K; [|reflexivity].
  apply has_key_lookup in K. contradiction.
Qed.

Lemma create_category_unchanged (name : string) (st : Session) :
  name = EmptyString \/ lookup name (categories st) <> None ->
  snd (create_category name st) = st /\
  fst (create_category name st)
  = if has_key name (categories st) then AlreadyExists else Ignored.
Proof.
  intros H. unfold create_category.
  destruct (has_key name (categories st)) eqn:K.
  - simpl. rewrite andb_false_r. simpl. now split.
  - destruct H as [->|H]; [simpl; now split|].
    apply has_key_lookup in H. congruence.
Qed.

(** X7. Creating a category.  The name is added, last and with an empty
    keyword list, and the ruleset is saved, if and only if the name is
    not empty and not yet a key; every other entry stays as it was.
    Otherwise the session is left untouched, with the "already exists"
    warning exactly when the name is a key.  Asking again for the same
    name changes nothing. *)
Theorem create_category_contract (name : string) (st : Session) :
  let result := create_category name st in
  let st' := snd result in
  (fst result = Added <->
   (name <> EmptyString /\ lookup name (categories st) = None)) /\
  (fst result = Added ->
   categories st' = categories st ++ [(name, [])] /\
   category_file st' = Some (categories st') /\
   lookup name (categories st') = Some [] /\
   (forall c, c <> name ->
      lookup c (categories st') = lookup c (categories st))) /\
  (fst result <> Added -> st' = st) /\
  (fst result = AlreadyExists <-> lookup name (categories st) <> None) /\
  snd (create_category name st') = st'.
Proof.
  intros result st'. subst result st'.
  assert (Hk : has_key name (categories st) = true
               <-> lookup name (categories st) <> None)
    by apply has_key_lookup.
  assert (Hcase : lookup name (categories st) <> None
                  \/ lookup name (categories st) = None)
    by (destruct (lookup name (categories st));
        [left; discriminate | right; reflexivity]).
  destruct (string_dec name EmptyString) as [He|Hne];
    [|destruct Hcase as [Hl|Hl]].
  3:{ rewrite (create_category_added name st Hne Hl). simpl.
      assert (lookup name (categories st ++ [(name, [])]) = Some []) as Hnew.
      { rewrite (lookup_app_new name name _ Hl). now rewrite String.eqb_refl. }
      split; [tauto|]. split; [|split; [|split]].
      - intros _. split; [reflexivity|]. split; [reflexivity|].
        split; [exact Hnew|]. intros c Hc.
        rewrite (lookup_app_new c name _ Hl).
        apply String.eqb_neq in Hc. rewrite String.eqb_sym in Hc.
        now rewrite Hc.
      - intros H. now contradiction H.
      - split; [discriminate | intros H; now contradiction H].
      - apply create_category_unchanged. right. simpl. congruence. }
  all: match goal with
       | |- _ => assert (Hu : name = EmptyString
                              \/ lookup name (categories st) <> None)
           by (first [left; assumption | right; assumption])
       end;
       destruct (create_category_unchanged name st Hu) as [Hs Hf];
       rewrite Hs, Hf;
       assert (Hno : ~ (name <> EmptyString
                        /\ lookup name (categories st) = None))
         by (intros [H1 H2]; destruct Hu as [Hu|Hu]; contradiction);
       destruct (has_key name (categories st)) eqn:K;
       (split; [split; [discriminate | intros H; destruct (Hno H)]|]);
       (split; [discriminate|]);
       (split; [intros _; reflexivity|]);
       (split; [|exact Hs]).
  - split; [intros _; now apply Hk | reflexivity].
  - split; [discriminate|]. intros H. apply Hk in H. discriminate.
  - split; [intros _; now apply Hk | reflexivity].
  - split; [discriminate|]. intros H. apply Hk in H. discriminate.
Qed.

Import Categorizer.

Lemma filter_fires_append_default (df : DataFrame) (row : Transaction)
    (keyword : string) (rs : Ruleset) :
  filter (fires df row) (append_keyword "Uncategorized" keyword rs)
  = filter (fires df row) rs.
Proof.
  induction rs as [|[c k] rs IH]; simpl; [reflexivity|].
  destruct (c =? "Uncategorized")%string eqn:E; simpl.
  - rewrite (CategorizerFacts.fires_skipped df row (c, k ++ [keyword])),
      (CategorizerFacts.fires_skipped df row (c, k));
      try reflexivity; unfold CategorizerFacts.skipped; simpl; now rewrite E.
  - now rewrite IH.
Qed.

Lemma add_keyword_cases (category keyword : string) (st : Session) :
  snd (add_keyword_to_category category keyword st) = st \/
  (exists keywords,
     lookup category (categories st) = Some keywords /\
     strip keyword <> EmptyString /\ ~ In (strip keyword) keywords /\
     snd (add_keyword_to_category category keyword st)
     = {| categories := append_keyword category (strip keyword) (categories st);
          category_file :=
            Some (append_keyword category (strip keyword) (categories st)) |}).
Proof.
  unfold add_keyword_to_category.
  destruct (truthy (strip keyword)) eqn:T; [|now left].
  destruct (lookup category (categories st)) as [keywords|]; [|now left].
  destruct (mem (strip keyword) keywords) eqn:M; [now left|].
  right. exists keywords. split; [reflexivity|].
  split; [now apply truthy_nonempty|]. split; [|reflexivity].
  intros H. apply mem_In in H. congruence.
Qed.

(** X8. A category that has just been created receives no transaction:
    the categorizer gives the same result with the ruleset after the
    "Add Category" button as with the ruleset before it. *)
Theorem create_category_changes_no_category (name : string) (st : Session)
    (df : DataFrame) :
  categorize_transactions (categories (snd (create_category name st))) df
  = categorize_transactions (categories st) df.
Proof.
  unfold create_category.
  destruct (truthy name && negb (has_key name (categories st)));
    [|now destruct (has_key name (categories st))].
  simpl. rewrite !categorize_rows. apply map_ext. intros row.
  rewrite assigned_app. unfold assigned at 2. simpl.
  unfold fires at 1. simpl. rewrite orb_true_r. simpl.
  now rewrite app_nil_r.
Qed.

(** X9. Learning a keyword for "Uncategorized" stores it, but the
    categorizer never reads the keywords of that entry: the result of a
    later categorization is the one the ruleset gave before. *)
Theorem learning_for_default_changes_no_category (keyword : string)
    (st : Session) (df : DataFrame) :
  categorize_transactions
    (categories (snd (add_keyword_to_category "Uncategorized" keyword st))) df
  = categorize_transactions (categories st) df.
Proof.
  destruct (add_keyword_cases "Uncategorized" keyword st)
    as [->|[keywords [_ [_ [_ ->]]]]]; [reflexivity|].
  simpl. rewrite !categorize_rows. apply map_ext. intros row.
  unfold assigned. now rewrite filter_fires_append_default.
Qed.

Lemma lower_nonempty (s : string) : s <> EmptyString -> lower s <> EmptyString.
Proof. destruct s; simpl; congruence. Qed.

Lemma stripped_keyword_hits (row : Transaction) :
  Substring (strip (lower (strip (Details row))))
            (strip (lower (Details row))).
Proof.
  rewrite <- PyStrFacts.strip_lower, PyStrFacts.strip_idempotent.
  apply contains_Substring, PyStrFacts.contains_refl.
Qed.

(** X10. The feedback loop.  Once the details of a transaction have been
    learnt for a category of the ruleset other than "Uncategorized" (the
    stripped details being non-empty), the stripped details are among the
    keywords of that category, the transaction satisfies the match
    condition for it, and the next categorization no longer leaves the
    transaction "Uncategorized".  It gives the transaction that very
    category when, labels and category names being distinct, no entry
    after it in the ruleset matches the transaction. *)
Theorem learnt_keyword_hits (st : Session) (category : string)
    (keywords : list string) (df : DataFrame) (i : nat) (row : Transaction) :
  lookup category (categories st) = Some keywords ->
  category <> "Uncategorized" ->
  strip (Details row) <> EmptyString ->
  nth_error df i = Some row ->
  let st' := snd (add_keyword_to_category category (Details row) st) in
  exists keywords' out,
    lookup category (categories st') = Some keywords' /\
    In (strip (Details row)) keywords' /\
    Hits row category keywords' /\
    nth_error (categorize_transactions (categories st') df) i = Some out /\
    Category out <> "Uncategorized" /\
    (NoDup (map Index df) -> NoDup (map fst (categories st)) ->
     forall rs1 k rs2,
       categories st' = rs1 ++ (category, k) :: rs2 ->
       (forall c k2, In (c, k2) rs2 -> ~ Hits row c k2) ->
       Category out = category).
Proof.
  intros Hl Hc Hne Hrow st'.
  pose proof (nth_error_In _ _ Hrow) as Hin.
  assert (Hst : exists keywords',
             lookup category (categories st') = Some keywords' /\
             In (strip (Details row)) keywords' /\
             map fst (categories st') = map fst (categories st)).
  { subst st'.
    destruct (in_dec string_dec (strip (Details row)) keywords) as [Hk|Hk].
    - rewrite (add_keyword_known category (Details row) st keywords Hl
                 (or_intror Hk)).
      exists keywords. simpl. auto.
    - rewrite (add_keyword_new category (Details row) st keywords Hl Hne Hk).
      exists (keywords ++ [strip (Details row)]). simpl.
      split; [now apply lookup_append_same|].
      split; [apply in_or_app; right; now left | apply append_keyword_keys]. }
  destruct Hst as [keywords' [Hl' [Hk' Hkeys]]].
  assert (Hhit : Hits row category keywords').
  { split; [exact Hc|]. split.
    - intros E. rewrite E in Hk'. destruct Hk'.
    - exists (strip (Details row)). split; [exact Hk'|].
      apply stripped_keyword_hits. }
  exists keywords',
    (set_Category (last (assigned df (categories st') row) "Uncategorized") row).
  split; [exact Hl'|]. split; [exact Hk'|]. split; [exact Hhit|].
  split; [now apply categorize_nth|]. simpl Category. split.
  - apply (hit_leaves_default df (categories st') row category keywords' Hin);
      [now apply lookup_In | exact Hhit].
  - intros Hnd Hkeysnd rs1 k rs2 Hsplit Hlater.
    assert (k = keywords') as ->.
    { assert (lookup category (categories st') = Some k) as Hk.
      { apply lookup_NoDup; [now rewrite Hkeys|].
        rewrite Hsplit. apply in_or_app. right. now left. }
      congruence. }
    rewrite Hsplit.
    change ((category, keywords') :: rs2)
      with ([(category, keywords')] ++ rs2).
    rewrite !assigned_app, (assigned_none df rs2 row Hnd Hin Hlater), app_nil_r.
    unfold assigned at 2. simpl.
    rewrite (Hits_fires df row category keywords' Hin Hhit). simpl.
    apply last_last.
Qed.

Lemma learnt_keyword_hits_witness :
  exists keywords' out,
    lookup "Transport"
      (categories (snd (add_keyword_to_category "Transport"
                          (Details (sample_row 0 " Careem ride "))
                          sample_session)))
    = Some keywords' /\
    In (strip (Details (sample_row 0 " Careem ride "))) keywords' /\
    nth_error
      (categorize_transactions
         (categories (snd (add_keyword_to_category "Transport"
                             (Details (sample_row 0 " Careem ride "))
                             sample_session)))
         [sample_row 0 " Careem ride "]) 0 = Some out /\
    Category out <> "Uncategorized".
Proof.
  destruct (learnt_keyword_hits sample_session "Transport" ["uber"]
              [sample_row 0 " Careem ride "] 0 (sample_row 0 " Careem ride "))
    as [keywords' [out [H1 [H2 [_ [H4 [H5 _]]]]]]].
  - reflexivity.
  - discriminate.
  - vm_compute. discriminate.
  - reflexivity.
  - exists keywords', out. auto.
Defined.

Lemma NoDup_snoc {A : Type} (l : list A) (x : A) :
  NoDup l -> ~ In x l -> NoDup (l ++ [x]).
Proof.
  intros Hnd Hx.
  apply (Permutation_NoDup (Permutation_cons_append l x)).
  now constructor.
Qed.

Lemma append_keyword_Tidy (category keyword : string) (rs : Ruleset)
    (keywords : list string) :
  lookup category rs = Some keywords ->
  keyword <> EmptyString -> strip keyword = keyword -> ~ In keyword keywords ->
  Tidy rs -> Tidy (append_keyword category keyword rs).
Proof.
  intros Hl Hne Hs Hnin [Hkeys Hall]. split.
  - now rewrite append_keyword_keys.
  - clear Hkeys. revert Hl. induction Hall as [|[c k] rs [Hnd Hk] Hall IH];
      simpl; [discriminate|].
    destruct (c =? category)%string eqn:E.
    + intros H. inversion H. subst k. constructor; [|exact Hall]. simpl. split.
      * now apply NoDup_snoc.
      * apply Forall_app. split; [exact Hk|]. now repeat constructor.
    + intros H. constructor; [now split | now apply IH].
Qed.

(** X11. The program keeps its ruleset tidy: when the category names are
    distinct, no keyword list repeats a keyword and every keyword is
    non-empty and stripped, the same holds after learning a keyword and
    after creating a category, whatever the arguments.  In such a ruleset
    no keyword lower-cases and strips to the empty string, so none
    matches every transaction. *)
Theorem ruleset_stays_tidy (category keyword name : string) (st : Session) :
  Tidy (categories st) ->
  Tidy (categories (snd (add_keyword_to_category category keyword st))) /\
  Tidy (categories (snd (create_category name st))) /\
  (forall c keywords k,
     In (c, keywords) (categories st) -> In k keywords ->
     strip (lower k) <> EmptyString).
Proof.
  intros Ht. split; [|split].
  - destruct (add_keyword_cases category keyword st)
      as [->|[keywords [Hl [Hne [Hnin ->]]]]]; [exact Ht|].
    simpl. apply (append_keyword_Tidy category (strip keyword) _ keywords);
      auto using PyStrFacts.strip_idempotent.
  - unfold create_category.
    destruct (truthy name && negb (has_key name (categories st))) eqn:E;
      [|now destruct (has_key name (categories st))].
    simpl. apply andb_true_iff in E. destruct E as [_ E].
    apply negb_true_iff in E. destruct Ht as [Hkeys Hall]. split.
    + rewrite map_app. simpl. apply NoDup_snoc; [exact Hkeys|].
      intros H. apply has_key_In in H. congruence.
    + apply Forall_app. split; [exact Hall|].
      repeat constructor.
  - intros c keywords k Hin Hk. destruct Ht as [_ Hall].
    rewrite Forall_forall in Hall. destruct (Hall _ Hin) as [_ Hks].
    rewrite Forall_forall in Hks. destruct (Hks _ Hk) as [Hne Hs].
    rewrite PyStrFacts.strip_lower, Hs. now apply lower_nonempty.
Qed.

Lemma sample_session_Tidy : Tidy (categories sample_session).
Proof.
  split; simpl.
  - repeat constructor; simpl; intuition discriminate.
  - repeat constructor; simpl; try tauto; discriminate.
Qed.

Lemma ruleset_stays_tidy_witness :
  Tidy (categories
          (snd (add_keyword_to_category "Transport" " Careem " sample_session)))
  /\
  Tidy (categories (snd (create_category "Food" sample_session))) /\
  (forall c keywords k,
     In (c, keywords) (categories sample_session) -> In k keywords ->
     strip (lower k) <> EmptyString).
Proof.
  apply (ruleset_stays_tidy "Transport" " Careem " "Food" sample_session).
  exact sample_session_Tidy.
Defined.

(** X12. Runs of the script do not lose the ruleset.  The state a run
    starts with agrees with the file; learning a keyword and creating a
    category keep it so; and on a state that agrees with the file the
    start of the next run changes nothing. *)
Theorem rerun_keeps_ruleset (category keyword name : string) (st : Session) :
  Consistent st ->
  rerun st = st /\
  Consistent (snd (add_keyword_to_category category keyword st)) /\
  Consistent (snd (create_category name st)) /\
  rerun (snd (add_keyword_to_category category keyword st))
  = snd (add_keyword_to_category category keyword st) /\
  rerun (snd (create_category name st)) = snd (create_category name st) /\
  (forall session file, Consistent (startup session file)).
Proof.
  assert (Hrerun : forall s, Consistent s -> rerun s = s).
  { intros [rs file] [H|H]; simpl in H; subst; reflexivity. }
  assert (Hadd : forall s, Consistent s ->
            Consistent (snd (add_keyword_to_category category keyword s))).
  { intros s Hs. destruct (add_keyword_cases category keyword s)
      as [->|[keywords [_ [_ [_ ->]]]]]; [exact Hs | now right]. }
  assert (Hcreate : forall s, Consistent s ->
            Consistent (snd (create_category name s))).
  { intros s Hs. unfold create_category.
    destruct (truthy name && negb (has_key name (categories s)));
      [now right | now destruct (has_key name (categories s))]. }
  intros Hc. repeat split; auto.
  intros session [stored|]; [now right | now left].
Qed.

Lemma rerun_keeps_ruleset_witness :
  rerun sample_session = sample_session /\
  Consistent
    (snd (add_keyword_to_category "Transport" " Careem " sample_session)) /\
  Consistent (snd (create_category "Food" sample_session)) /\
  rerun (snd (add_keyword_to_category "Transport" " Careem " sample_session))
  = snd (add_keyword_to_category "Transport" " Careem " sample_session) /\
  rerun (snd (create_category "Food" sample_session))
  = snd (create_category "Food" sample_session) /\
  (forall session file, Consistent (startup session file)).
Proof.
  apply (rerun_keeps_ruleset "Transport" " Careem " "Food" sample_session).
  now left.
Defined.

End SessionFacts.

(* ================================================================== *)
(** ** Saving category changes: the loop of lines 163-173 *)

Module SaveChanges.
Import PyStr Feedback Frames.

(** What stops the loop. *)
Inductive Failure : Type :=
| LabelMissing (idx : nat)
| LabelAmbiguous (idx : nat)
| DetailsNotText
| CategoryMissing (e : Exception).

(** [debits_df.at[idx, "Category"]], as the test of line 166 uses it: a
    label the frame does not have raises [KeyError]; a label it has more
    than once yields an array, whose truth value raises [ValueError]. *)
Definition at_Category (idx : nat) (df : Frame) : Failure + string :=
  match filter (fun row => row_Index row =? idx) df with
  | [] => inl (LabelMissing idx)
  | [row] => inr (row_Category row)
  | _ :: _ :: _ => inl (LabelAmbiguous idx)
  end.

(** How the handler of the button ends: with the success message, or
    with an exception. *)
Inductive SaveOutcome : Type :=
| Saved
| Failed (f : Failure).

(** Lines 164-173: [edited] is the frame the editor returns,
    [debits_df] the frame of the session.  The frame is written (line
    170) before the keyword is handed over (line 171), where
    [keyword.strip()] raises [AttributeError] on details that are not
    text. *)
Fixpoint save_changes (edited : Frame) (debits_df : Frame)
    (st : Session) : SaveOutcome * Frame * Session :=
  match edited with
  | [] => (Saved, debits_df, st)
  | row :: rest =>
      let new_category := row_Category row in
      match at_Category (row_Index row) debits_df with
      | inl f => (Failed f, debits_df, st)
      | inr current =>
          if (new_category =? current)%string
          then save_changes rest debits_df st
          else
            let debits_df := set_at_row (row_Index row) new_category debits_df in
            match row_Details row with
            | Text details =>
                match add_keyword_to_category new_category details st with
                | (Raise e, st) => (Failed (CategoryMissing e), debits_df, st)
                | (Return _, st) => save_changes rest debits_df st
                end
            | _ => (Failed DetailsNotText, debits_df, st)
            end
      end
  end.

(** *** Reading and writing a label *)

Lemma filter_set_at_same (idx : nat) (category : string) (df : Frame) :
  filter (fun row => row_Index row =? idx) (set_at_row idx category df)
  = map (set_row_Category category) (filter (fun row => row_Index row =? idx) df).
Proof.
  unfold set_at_row. induction df as [|r df IH]; simpl; [reflexivity|].
  destruct (row_Index r =? idx) eqn:E; simpl; rewrite E; simpl; now rewrite IH.
Qed.

Lemma filter_set_at_other (idx idx' : nat) (category : string)
    (df : Frame) :
  idx' <> idx ->
  filter (fun row => row_Index row =? idx') (set_at_row idx category df)
  = filter (fun row => row_Index row =? idx') df.
Proof.
  intros Hne. unfold set_at_row. induction df as [|r df IH]; simpl; [reflexivity|].
  destruct (row_Index r =? idx) eqn:E; simpl.
  - apply Nat.eqb_eq in E. rewrite E.
    apply not_eq_sym in Hne. apply Nat.eqb_neq in Hne. now rewrite Hne.
  - now rewrite IH.
Qed.

Lemma at_Category_set_at_same (idx : nat) (category current : string)
    (df : Frame) :
  at_Category idx df = inr current ->
  at_Category idx (set_at_row idx category df) = inr category.
Proof.
  unfold at_Category. rewrite filter_set_at_same.
  destruct (filter _ df) as [|r [|r' l]]; simpl; try discriminate.
  reflexivity.
Qed.

Lemma at_Category_set_at_other (idx idx' : nat) (category : string)
    (df : Frame) :
  idx' <> idx ->
  at_Category idx' (set_at_row idx category df) = at_Category idx' df.
Proof.
  intros H. unfold at_Category. now rewrite filter_set_at_other.
Qed.

Lemma filter_own_label (df : Frame) (row : Row) :
  NoDup (map row_Index df) -> In row df ->
  filter (fun r => row_Index r =? row_Index row) df = [row].
Proof.
  induction df as [|r df IH]; simpl; [intros _ []|].
  intros Hnd Hin. inversion Hnd as [|? ? Hnotin Hnd']; subst.
  destruct Hin as [->|Hin].
  - rewrite Nat.eqb_refl. f_equal.
    destruct (filter (fun r => row_Index r =? row_Index row) df) as [|r' l] eqn:F;
      [reflexivity|].
    exfalso. apply Hnotin.
    assert (In r' (filter (fun r => row_Index r =? row_Index row) df)) as H
      by (rewrite F; now left).
    apply filter_In in H. destruct H as [H E]. apply Nat.eqb_eq in E.
    rewrite <- E. now apply in_map.
  - destruct (row_Index r =? row_Index row) eqn:E.
    + exfalso. apply Hnotin. apply Nat.eqb_eq in E. rewrite E.
      now apply in_map.
    + now apply IH.
Qed.

Lemma at_Category_own (df : Frame) (row : Row) :
  NoDup (map row_Index df) -> In row df ->
  at_Category (row_Index row) df = inr (row_Category row).
Proof.
  intros Hnd Hin. unfold at_Category.
  now rewrite (filter_own_label df row Hnd Hin).
Qed.

(** *** What a call of [add_keyword_to_category] leaves behind *)

Lemma add_keyword_keys (category keyword : string) (st : Session) :
  map fst (categories (snd (add_keyword_to_category category keyword st)))
  = map fst (categories st).
Proof.
  destruct (SessionFacts.add_keyword_cases category keyword st)
    as [->|[keywords [_ [_ [_ ->]]]]]; [reflexivity|].
  apply append_keyword_keys.
Qed.

Lemma lookup_append_grows (category keyword c : string) (rs : Ruleset)
    (ks : list string) (k : string) :
  lookup c rs = Some ks -> In k ks ->
  exists ks', lookup c (append_keyword category keyword rs) = Some ks' /\
              In k ks'.
Proof.
  induction rs as [|[c' k'] rs IH]; simpl; [discriminate|].
  destruct (c' =? category)%string eqn:E; simpl.
  - destruct (c' =? c)%string; [|eauto].
    intros H Hin. inversion H. subst k'.
    exists (ks ++ [keyword]). split; [reflexivity|].
    apply in_or_app. now left.
  - destruct (c' =? c)%string; [eauto | exact IH].
Qed.

Lemma add_keyword_grows (category keyword c : string) (st : Session)
    (ks : list string) (k : string) :
  lookup c (categories st) = Some ks -> In k ks ->
  exists ks',
    lookup c (categories (snd (add_keyword_to_category category keyword st)))
    = Some ks' /\ In k ks'.
Proof.
  intros Hl Hin.
  destruct (SessionFacts.add_keyword_cases category keyword st)
    as [->|[keywords [_ [_ [_ ->]]]]]; [eauto|].
  simpl. now apply lookup_append_grows with (ks := ks).
Qed.

Lemma add_keyword_returns (category keyword : string) (st : Session) :
  lookup category (categories st) <> None ->
  exists b, fst (add_keyword_to_category category keyword st) = Return b.
Proof.
  intros H. unfold add_keyword_to_category.
  destruct (truthy (strip keyword)); [|now exists false].
  destruct (lookup category (categories st)) as [ks|]; [|congruence].
  destruct (negb (mem (strip keyword) ks)); [now exists true | now exists false].
Qed.

Lemma add_keyword_learnt (category keyword : string) (st : Session) (b : bool) :
  fst (add_keyword_to_category category keyword st) = Return b ->
  strip keyword <> EmptyString ->
  exists ks,
    lookup category
      (categories (snd (add_keyword_to_category category keyword st)))
    = Some ks /\ In (strip keyword) ks.
Proof.
  intros Hr Hne. destruct (lookup category (categories st)) as [ks|] eqn:Hl.
  - destruct (in_dec string_dec (strip keyword) ks) as [Hin|Hnin].
    + rewrite (add_keyword_known category keyword st ks Hl (or_intror Hin)).
      simpl. eauto.
    + rewrite (add_keyword_new category keyword st ks Hl Hne Hnin). simpl.
      exists (ks ++ [strip keyword]).
      split; [now apply lookup_append_same|].
      apply in_or_app. right. now left.
  - unfold add_keyword_to_category in Hr.
    apply truthy_nonempty in Hne. rewrite Hne, Hl in Hr. discriminate.
Qed.

(** *** One turn of the loop *)

Lemma save_changes_turn (row : Row) (rest : Frame)
    (df : Frame) (st : Session) (o : SaveOutcome) (df' : Frame)
    (st' : Session) :
  save_changes (row :: rest) df st = (o, df', st') ->
  (exists f, at_Category (row_Index row) df = inl f /\
             o = Failed f /\ df' = df /\ st' = st) \/
  (at_Category (row_Index row) df = inr (row_Category row) /\
   save_changes rest df st = (o, df', st')) \/
  (exists current,
     at_Category (row_Index row) df = inr current /\
     current <> row_Category row /\
     ((is_text (row_Details row) = false /\
       o = Failed DetailsNotText /\
       df' = set_at_row (row_Index row) (row_Category row) df /\
       st' = st) \/
      (exists details,
         row_Details row = Text details /\
         ((exists e,
             fst (add_keyword_to_category (row_Category row) details st)
             = Raise e /\
             o = Failed (CategoryMissing e) /\
             df' = set_at_row (row_Index row) (row_Category row) df /\
             st' = snd (add_keyword_to_category (row_Category row) details st))
          \/
          (exists b,
             fst (add_keyword_to_category (row_Category row) details st)
             = Return b /\
             save_changes rest
               (set_at_row (row_Index row) (row_Category row) df)
               (snd (add_keyword_to_category (row_Category row) details st))
             = (o, df', st')))))).
Proof.
  simpl. destruct (at_Category (row_Index row) df) as [f|current] eqn:A.
  - intros H. inversion H. left. exists f. auto.
  - destruct (row_Category row =? current)%string eqn:E.
    + apply String.eqb_eq in E. rewrite <- E. intros H. right. left. auto.
    + apply String.eqb_neq in E. intros H. right. right. exists current.
      split; [reflexivity|]. split; [congruence|].
      destruct (row_Details row) as [details| |];
        [|left; inversion H; auto|left; inversion H; auto].
      right. exists details. split; [reflexivity|].
      destruct (add_keyword_to_category (row_Category row) details st)
        as [[b|e] st1]; simpl.
      * right. exists b. auto.
      * left. exists e. inversion H. auto.
Qed.

Lemma save_changes_frame (edited : Frame) :
  forall df st o df' st',
  save_changes edited df st = (o, df', st') ->
  (forall idx, ~ In idx (map row_Index edited) ->
     at_Category idx df' = at_Category idx df) /\
  (forall c, map (set_row_Category c) df' = map (set_row_Category c) df) /\
  map fst (categories st') = map fst (categories st) /\
  (forall c ks k, lookup c (categories st) = Some ks -> In k ks ->
     exists ks', lookup c (categories st') = Some ks' /\ In k ks').
Proof.
  induction edited as [|row rest IH]; intros df st o df' st' H.
  - inversion H. subst. repeat split; eauto.
  - apply save_changes_turn in H.
    destruct H as [[f [_ [_ [-> ->]]]] | [[_ H] | [current [_ [_ H]]]]].
    + repeat split; eauto.
    + destruct (IH _ _ _ _ _ H) as [H1 [H2 [H3 H4]]].
      repeat split; auto. intros idx Hidx. apply H1. simpl in Hidx. tauto.
    + destruct H as [[_ [_ [-> ->]]] | [details [_ H]]].
      { split; [|split; [|split]].
        - intros idx Hidx. apply at_Category_set_at_other.
          simpl in Hidx. intros E. apply Hidx. left. now rewrite E.
        - intros c. apply set_at_row_erased.
        - reflexivity.
        - eauto. }
      destruct H as [[e [_ [_ [-> ->]]]] | [b [_ H]]].
      * split; [|split; [|split]].
        -- intros idx Hidx. apply at_Category_set_at_other.
           simpl in Hidx. intros E. apply Hidx. left. now rewrite E.
        -- intros c. apply set_at_row_erased.
        -- apply add_keyword_keys.
        -- intros c ks k. apply add_keyword_grows.
      * destruct (IH _ _ _ _ _ H) as [H1 [H2 [H3 H4]]].
        split; [|split; [|split]].
        -- intros idx Hidx. rewrite H1 by (simpl in Hidx; tauto).
           apply at_Category_set_at_other.
           simpl in Hidx. intros E. apply Hidx. left. now rewrite E.
        -- intros c. now rewrite H2, set_at_row_erased.
        -- now rewrite H3, add_keyword_keys.
        -- intros c ks k Hl Hin.
           destruct (add_keyword_grows (row_Category row) details c st ks k
                       Hl Hin) as [ks1 [Hl1 Hin1]].
           exact (H4 c ks1 k Hl1 Hin1).
Qed.

(** Nothing to save: every edited row already has the category the frame
    holds under its label. *)
Lemma save_changes_agreeing (edited : Frame) (df : Frame)
    (st : Session) :
  (forall row, In row edited ->
     at_Category (row_Index row) df = inr (row_Category row)) ->
  save_changes edited df st = (Saved, df, st).
Proof.
  induction edited as [|row rest IH]; intros H; [reflexivity|].
  simpl. rewrite (H row (or_introl eq_refl)), String.eqb_refl.
  apply IH. intros r Hr. apply H. now right.
Qed.

Lemma save_changes_agrees (edited : Frame) :
  forall df st df' st',
  NoDup (map row_Index edited) ->
  save_changes edited df st = (Saved, df', st') ->
  forall row, In row edited ->
    at_Category (row_Index row) df' = inr (row_Category row).
Proof.
  induction edited as [|row rest IH]; intros df st df' st' Hnd H r Hr;
    [destruct Hr|].
  inversion Hnd as [|? ? Hnotin Hnd']; subst.
  apply save_changes_turn in H.
  destruct H as [[f [_ [Hf _]]] | [[A H] | [current [A [_ H]]]]];
    [discriminate| |].
  - destruct Hr as [<-|Hr]; [|exact (IH _ _ _ _ Hnd' H r Hr)].
    destruct (save_changes_frame rest _ _ _ _ _ H) as [H1 _].
    now rewrite (H1 _ Hnotin).
  - destruct H as [[_ [Hf _]] | [details [_ H]]]; [discriminate|].
    destruct H as [[e [_ [Hf _]]] | [b [_ H]]]; [discriminate|].
    destruct Hr as [<-|Hr]; [|exact (IH _ _ _ _ Hnd' H r Hr)].
    destruct (save_changes_frame rest _ _ _ _ _ H) as [H1 _].
    rewrite (H1 _ Hnotin).
    exact (at_Category_set_at_same _ _ _ _ A).
Qed.

(** *** Sample rows *)

Definition sample_entry (index : nat) (details : string) : Row :=
  {| row_Index := index; row_Date := Some 0%Z; row_Details := Text details;
     row_Amount := F64.of_decimal 1050 2; row_DebitCredit := Text "Debit";
     row_Status := Text "SETTLED"; row_Category := EmptyString |}.

(** A row whose details were empty in the file. *)
Definition blank_entry (index : nat) : Row :=
  {| row_Index := index; row_Date := Some 0%Z; row_Details := Missing;
     row_Amount := F64.of_decimal 1050 2; row_DebitCredit := Text "Debit";
     row_Status := Text "SETTLED"; row_Category := EmptyString |}.

(** Choosing a category for a row without details: the frame is written,
    then line 171 raises, and the ruleset is left as it was. *)
Example save_changes_without_details :
  save_changes [set_row_Category "Transport" (blank_entry 0)]
    [set_row_Category "Uncategorized" (blank_entry 0)] sample_session
  = (Failed DetailsNotText, [set_row_Category "Transport" (blank_entry 0)],
     sample_session).
Proof. reflexivity. Qed.

(** X13. Pressing the button without having edited anything changes
    neither the frame nor the ruleset nor the file (the row labels being
    distinct). *)
Theorem save_without_edit (df : Frame) (st : Session) :
  NoDup (map row_Index df) ->
  save_changes df df st = (Saved, df, st).
Proof.
  intros Hnd. apply save_changes_agreeing. intros row Hin.
  now apply at_Category_own.
Qed.

Lemma save_without_edit_witness :
  save_changes [sample_entry 0 "Starbucks Downtown"; blank_entry 1]
    [sample_entry 0 "Starbucks Downtown"; blank_entry 1]
    sample_session
  = (Saved, [sample_entry 0 "Starbucks Downtown"; blank_entry 1],
     sample_session).
Proof.
  apply (save_without_edit
           [sample_entry 0 "Starbucks Downtown"; blank_entry 1]
           sample_session).
  repeat constructor; simpl; intuition discriminate.
Defined.

(** X14. When the handler ends with the success message (the edited rows
    having distinct labels), the frame of the session holds, under the
    label of every edited row, the category of that row; nothing but the
    Category column of the frame has changed; the ruleset has the same
    category names as before and has lost no keyword; and pressing the
    button again changes nothing. *)
Theorem save_changes_applies (edited df : Frame) (st : Session)
    (df' : Frame) (st' : Session) :
  NoDup (map row_Index edited) ->
  save_changes edited df st = (Saved, df', st') ->
  (forall row, In row edited ->
     at_Category (row_Index row) df' = inr (row_Category row)) /\
  (forall c, map (set_row_Category c) df' = map (set_row_Category c) df) /\
  map fst (categories st') = map fst (categories st) /\
  (forall c ks k, lookup c (categories st) = Some ks -> In k ks ->
     exists ks', lookup c (categories st') = Some ks' /\ In k ks') /\
  save_changes edited df' st' = (Saved, df', st').
Proof.
  intros Hnd H.
  pose proof (save_changes_agrees edited df st df' st' Hnd H) as Ha.
  destruct (save_changes_frame edited _ _ _ _ _ H) as [_ [H2 [H3 H4]]].
  repeat split; auto. now apply save_changes_agreeing.
Qed.

Lemma save_changes_applies_witness :
  exists df' st',
    save_changes [set_row_Category "Transport" (sample_entry 0 "Careem ride")]
      [set_row_Category "Uncategorized" (sample_entry 0 "Careem ride")]
      sample_session = (Saved, df', st') /\
    save_changes [set_row_Category "Transport" (sample_entry 0 "Careem ride")]
      df' st' = (Saved, df', st').
Proof.
  eexists. eexists. split; [vm_compute; reflexivity|].
  apply (save_changes_applies
           [set_row_Category "Transport" (sample_entry 0 "Careem ride")]
           [set_row_Category "Uncategorized" (sample_entry 0 "Careem ride")]
           sample_session).
  - repeat constructor. intros [].
  - vm_compute. reflexivity.
Defined.

(** X15. When the handler ends with the success message (the edited
    rows having distinct labels), every edited row whose category differs
    from the one the frame held, and whose details are not blank, has had
    its stripped details learnt: they are among the keywords of its new
    category in the ruleset the handler leaves. *)
Theorem save_changes_learns (edited : Frame) :
  forall (df : Frame) (st : Session) (df' : Frame) (st' : Session)
         (row : Row) (current details : string),
  NoDup (map row_Index edited) ->
  save_changes edited df st = (Saved, df', st') ->
  In row edited ->
  at_Category (row_Index row) df = inr current ->
  current <> row_Category row ->
  row_Details row = Text details ->
  strip details <> EmptyString ->
  exists ks, lookup (row_Category row) (categories st') = Some ks /\
             In (strip details) ks.
Proof.
  induction edited as [|h rest IH];
    intros df st df' st' row current details Hnd H Hin A Hc Hd Hne;
    [destruct Hin|].
  inversion Hnd as [|? ? Hnotin Hnd']; subst.
  apply save_changes_turn in H.
  destruct H as [[f [_ [Hf _]]] | [[Ah H] | [cur [Ah [Hcur H]]]]];
    [discriminate| |].
  - destruct Hin as [->|Hin];
      [exfalso; apply Hc; rewrite Ah in A; now inversion A|].
    exact (IH _ _ _ _ row current details Hnd' H Hin A Hc Hd Hne).
  - destruct H as [[_ [Hf _]] | [dh [Hdh H]]]; [discriminate|].
    destruct H as [[e [_ [Hf _]]] | [b [Hb H]]]; [discriminate|].
    destruct Hin as [->|Hin].
    + rewrite Hd in Hdh. inversion Hdh. subst dh.
      destruct (add_keyword_learnt _ _ _ b Hb Hne) as [ks [Hl Hk]].
      destruct (save_changes_frame rest _ _ _ _ _ H) as [_ [_ [_ H4]]].
      exact (H4 _ ks _ Hl Hk).
    + apply (IH _ _ _ _ row current details Hnd' H Hin); auto.
      rewrite at_Category_set_at_other; [exact A|].
      intros E. apply Hnotin. rewrite <- E. now apply in_map.
Qed.

Lemma save_changes_learns_witness :
  exists ks,
    lookup
      (row_Category (set_row_Category "Transport"
                       (sample_entry 0 " Careem ride ")))
      (categories
         (snd (save_changes
                 [set_row_Category "Transport" (sample_entry 0 " Careem ride ")]
                 [set_row_Category "Uncategorized"
                    (sample_entry 0 " Careem ride ")]
                 sample_session)))
    = Some ks /\
    In (strip " Careem ride ") ks.
Proof.
  apply (save_changes_learns
           [set_row_Category "Transport" (sample_entry 0 " Careem ride ")]
           [set_row_Category "Uncategorized" (sample_entry 0 " Careem ride ")]
           sample_session
           (snd (fst (save_changes
                   [set_row_Category "Transport"
                      (sample_entry 0 " Careem ride ")]
                   [set_row_Category "Uncategorized"
                      (sample_entry 0 " Careem ride ")]
                   sample_session)))
           _ _ "Uncategorized").
  - repeat constructor. intros [].
  - vm_compute. reflexivity.
  - now left.
  - reflexivity.
  - discriminate.
  - reflexivity.
  - vm_compute. discriminate.
Defined.

(** X16. The handler ends with the success message whenever the frame of
    the session has exactly one row under the label of every edited row,
    every category chosen in the editor is a key of the ruleset (the
    editor offers the keys only) and the details of every edited row are
    text.  (On details that are not text, such as those of a line whose
    Details cell was empty in the file, line 171 raises for a row whose
    category was changed: see [save_changes_without_details].) *)
Theorem save_changes_succeeds (edited : Frame) :
  forall (df : Frame) (st : Session),
  (forall row, In row edited ->
     exists current, at_Category (row_Index row) df = inr current) ->
  (forall row, In row edited ->
     lookup (row_Category row) (categories st) <> None) ->
  (forall row, In row edited -> is_text (row_Details row) = true) ->
  fst (fst (save_changes edited df st)) = Saved.
Proof.
  induction edited as [|h rest IH]; intros df st Hat Hkey Htext;
    [reflexivity|].
  simpl. destruct (Hat h (or_introl eq_refl)) as [current Hcur]. rewrite Hcur.
  destruct (row_Category h =? current)%string.
  - apply IH; intros row Hr; [apply Hat | apply Hkey | apply Htext];
      now right.
  - pose proof (Htext h (or_introl eq_refl)) as Hh.
    destruct (row_Details h) as [details| |]; try discriminate.
    destruct (add_keyword_returns (row_Category h) details st
                (Hkey h (or_introl eq_refl))) as [b Hb].
    pose proof (add_keyword_keys (row_Category h) details st) as Hkeys.
    destruct (add_keyword_to_category (row_Category h) details st)
      as [o st1]. simpl in Hb, Hkeys. subst o.
    apply IH.
    + intros row Hr. destruct (Hat row (or_intror Hr)) as [c Hc].
      destruct (Nat.eq_dec (row_Index row) (row_Index h)) as [E|E].
      * rewrite E. exists (row_Category h).
        exact (at_Category_set_at_same _ _ current _ Hcur).
      * exists c. now rewrite at_Category_set_at_other.
    + intros row Hr.
      apply SessionFacts.has_key_lookup, SessionFacts.has_key_In.
      rewrite Hkeys.
      apply SessionFacts.has_key_In, SessionFacts.has_key_lookup.
      apply Hkey. now right.
    + intros row Hr. apply Htext. now right.
Qed.

Lemma save_changes_succeeds_witness :
  fst (fst (save_changes
              [set_row_Category "Transport" (sample_entry 0 "Careem ride")]
              [set_row_Category "Uncategorized" (sample_entry 0 "Careem ride")]
              sample_session)) = Saved.
Proof.
  apply (save_changes_succeeds
           [set_row_Category "Transport" (sample_entry 0 "Careem ride")]
           [set_row_Category "Uncategorized" (sample_entry 0 "Careem ride")]
           sample_session).
  - intros row [<-|[]]. now exists "Uncategorized".
  - intros row [<-|[]]. discriminate.
  - intros row [<-|[]]. reflexivity.
Defined.

End SaveChanges.
(* ================================================================== *)
(** ** From the file to the categories *)

Module PipelineFacts.
Import PyStr Categorizer Frames Normalizer.

Lemma increasing_NoDup (l : list nat) : StronglySorted lt l -> NoDup l.
Proof.
  induction 1 as [|x l Hs IH Hf]; constructor; [|exact IH].
  intros Hin. rewrite Forall_forall in Hf. specialize (Hf x Hin). lia.
Qed.

(** The frame handed to the categorizer. *)
Lemma load_transactions_frame (float_of_string : string -> option float)
    (strptime : string -> option Z) (categories : Ruleset) (file : RawFrame)
    (out : Frame) :
  load_transactions float_of_string strptime categories file = Some out ->
  exists df0,
    categorize_transactions categories df0 = Some out /\
    Forall2 (fun ir t => typed float_of_string strptime
                           (map strip (columns file)) (fst ir) (snd ir) t)
            (retained file) df0.
Proof.
  intros H. apply load_transactions_Some in H.
  destruct H as [_ [_ [df0 [Hrows Hcat]]]]. now exists df0.
Qed.

Lemma retained_length (file : RawFrame) :
  List.length (retained file) <= List.length (rows file) /\
  (~ In "Status" (map strip (columns file)) ->
   List.length (retained file) = List.length (rows file)).
Proof.
  assert (Hlen : List.length
                   (combine (seq 0 (List.length (rows file))) (rows file))
                 = List.length (rows file)).
  { rewrite length_combine, length_seq. apply Nat.min_id. }
  unfold retained.
  destruct (occurs "Status" (map strip (columns file)) =? 1) eqn:M.
  - split.
    + rewrite <- Hlen at 2. apply filter_length_le.
    + intros H. exfalso. apply H. apply occurs_In.
      apply Nat.eqb_eq in M. lia.
  - split; [rewrite Hlen; apply Nat.le_refl | intros _; exact Hlen].
Qed.

Lemma erased_labels (df out : Frame) :
  map (set_row_Category EmptyString) out
  = map (set_row_Category EmptyString) df ->
  map row_Index out = map row_Index df.
Proof.
  intros H.
  assert (forall l, map row_Index l
                    = map row_Index (map (set_row_Category EmptyString) l))
    as E by (intros l; rewrite map_map; now apply map_ext).
  now rewrite (E out), (E df), H.
Qed.

Lemma as_read_all_text (df : Frame) :
  (exists seen, convert as_read df = Some seen) <->
  forallb is_text (map row_Details df) = true.
Proof.
  rewrite <- all_text_details. split.
  - intros [seen H] row Hin.
    destruct (row_Details row) eqn:D; try reflexivity; exfalso;
      (assert (convert as_read df = None) as N; [|congruence]);
      apply convert_None; exists row; (split; [exact Hin|]);
      unfold as_read; now rewrite D.
  - apply as_read_text.
Qed.

Lemma as_read_rows (df : Frame) (seen : DataFrame) :
  convert as_read df = Some seen ->
  map Index seen = map row_Index df /\
  forall t, In t seen -> exists row, In row df /\ as_read row = Some t.
Proof.
  intros H. apply convert_Forall2 in H.
  induction H as [|row t df seen Hrow H [IH1 IH2]]; simpl.
  - split; [reflexivity | intros t []].
  - destruct (as_read_cells row t Hrow) as [Hi _]. split.
    + now rewrite Hi, IH1.
    + intros t' [<-|Hin]; [exists row; auto|].
      destruct (IH2 t' Hin) as [row' [Hin' Hr]]. exists row'. auto.
Qed.

Lemma column_cell_Text (name : string) (names : list string) (c : Cell)
    (s : string) :
  column_cell name names c = Text s -> c = Text s.
Proof.
  unfold column_cell. now destruct (occurs name names =? 1).
Qed.

(** X17. From the file to the categories.  Whenever the function returns
    a frame, the frame has distinct row labels and at most as many rows
    as the file has lines (exactly as many without a Status column), and
    the category of every row is decided by the details of its line.
    Without an eligible entry in the ruleset every row is
    "Uncategorized".  With one, the details of every row are text; and
    whenever they are, the category of a row is "Uncategorized" exactly
    when no entry of the ruleset matches the details, otherwise the name
    of an entry that matches, namely the last one in the ruleset that
    does. *)
Theorem load_then_categorize (float_of_string : string -> option float)
    (strptime : string -> option Z) (categories : Ruleset) (file : RawFrame)
    (out : Frame) :
  load_transactions float_of_string strptime categories file = Some out ->
  NoDup (map row_Index out) /\
  List.length out <= List.length (rows file) /\
  (~ In "Status" (map strip (columns file)) ->
   List.length out = List.length (rows file)) /\
  (existsb eligible categories = false ->
   forall row, In row out -> row_Category row = "Uncategorized") /\
  (existsb eligible categories = true ->
   exists seen, convert as_read out = Some seen) /\
  (forall seen, convert as_read out = Some seen ->
   forall t, In t seen ->
     (exists r, nth_error (rows file) (Index t) = Some r /\
                raw_Details r = Text (Details t)) /\
     (Category t = "Uncategorized" \/
      exists k, In (Category t, k) categories /\ Hits t (Category t) k) /\
     ((exists c k, In (c, k) categories /\ Hits t c k)
      <-> Category t <> "Uncategorized") /\
     (forall rs1 c k rs2,
        categories = rs1 ++ (c, k) :: rs2 -> Hits t c k ->
        (forall c' k', In (c', k') rs2 -> ~ Hits t c' k') ->
        Category t = c)).
Proof.
  intros Hload.
  destruct (load_transactions_frame _ _ _ _ _ Hload) as [df0 [Hcat Hrows]].
  pose proof (typed_labels float_of_string strptime _ _ _ Hrows) as Hlab.
  pose proof (categorize_cells_erased categories df0 out EmptyString Hcat)
    as Her.
  assert (Hnd : NoDup (map row_Index df0)).
  { rewrite Hlab, retained_filter. apply increasing_NoDup.
    apply labels_increasing. }
  pose proof (Forall2_length Hrows) as Hlen.
  assert (Hlo : List.length out = List.length df0).
  { rewrite <- (length_map row_Index out), <- (length_map row_Index df0).
    now rewrite (erased_labels df0 out Her). }
  destruct (retained_length file) as [Hle Heq].
  split; [now rewrite (erased_labels df0 out Her)|].
  split; [lia|]. split; [intros H; rewrite Hlo, <- Hlen; auto|].
  split; [|split].
  { intros Hidle row Hin.
    rewrite (proj2 (categorize_cells_outcome categories df0) Hidle) in Hcat.
    inversion Hcat. subst out. apply in_map_iff in Hin.
    destruct Hin as [row0 [<- _]]. reflexivity. }
  { intros Helig. apply as_read_all_text.
    rewrite (erased_details df0 out Her). apply all_text_details.
    assert (categorize_transactions categories df0 <> None) as Hne by congruence.
    apply (proj1 (categorize_cells_outcome categories df0)) in Hne.
    destruct Hne as [Hne|Hne]; [congruence | exact Hne]. }
  intros seen Hto.
  assert (exists seen0, convert as_read df0 = Some seen0) as [tdf0 Ht0].
  { apply as_read_all_text. rewrite <- (erased_details df0 out Her).
    apply as_read_all_text. now exists seen. }
  destruct (categorize_cells_view as_read as_read_cells
              (fun c row t => as_read_set c row t) categories df0 tdf0 Ht0)
    as [out' [Hcat' Hto']].
  rewrite Hcat in Hcat'. inversion Hcat'. subst out'. clear Hcat'.
  rewrite Hto in Hto'. inversion Hto'. subst seen. clear Hto'.
  destruct (as_read_rows df0 tdf0 Ht0) as [Hidx Hsrc].
  assert (Hnd0 : NoDup (map Index tdf0)) by now rewrite Hidx.
  rewrite categorize_rows.
  intros t Ht. apply in_map_iff in Ht. destruct Ht as [row [<- Hin]].
  split; [|split; [|split]].
  - destruct (Hsrc row Hin) as [rw [Hrw Hv]].
    destruct (as_read_cells rw row Hv) as [Hi Hd].
    destruct (Forall2_In_r _ _ _ rw Hrows Hrw) as [[i r] [Hir Hty]].
    simpl in Hty. destruct Hty as [Hti [_ [Htd _]]].
    exists r. simpl. rewrite <- Hi, Hti. split.
    + rewrite retained_filter in Hir. apply filter_In in Hir.
      destruct Hir as [Hir _]. apply In_indexed in Hir.
      rewrite Nat.sub_0_r in Hir. tauto.
    + rewrite Hd in Htd. symmetry in Htd.
      exact (column_cell_Text _ _ _ _ Htd).
  - simpl Category.
    destruct (string_dec (last (assigned tdf0 categories row) "Uncategorized")
                "Uncategorized") as [E|E]; [now left | right].
    exact (final_category_hit tdf0 categories row Hnd0 Hin E).
  - simpl Category. split.
    + intros [c [k [Hc Hhit]]].
      exact (hit_leaves_default tdf0 categories row c k Hin Hc Hhit).
    + intros H.
      destruct (final_category_hit tdf0 categories row Hnd0 Hin H) as [k Hk].
      now exists (last (assigned tdf0 categories row) "Uncategorized"), k.
  - intros rs1 c k rs2 -> Hhit Hlater. simpl Category.
    change ((c, k) :: rs2) with ([(c, k)] ++ rs2).
    rewrite !assigned_app, (assigned_none tdf0 rs2 row Hnd0 Hin Hlater),
      app_nil_r.
    unfold assigned at 2. simpl.
    rewrite (Hits_fires tdf0 row c k Hin Hhit). simpl. apply last_last.
Qed.

Lemma load_then_categorize_witness :
  exists out,
    load_transactions plain_decimal day_month_year sample_rules sample_file
    = Some out /\
    NoDup (map row_Index out) /\ List.length out <= 3.
Proof.
  destruct (load_transactions plain_decimal day_month_year sample_rules
              sample_file) as [out|] eqn:E; [|vm_compute in E; discriminate].
  exists out. split; [reflexivity|].
  destruct (load_then_categorize plain_decimal day_month_year sample_rules
              sample_file out E) as [H1 [H2 _]].
  split; [exact H1 | exact H2].
Defined.

End PipelineFacts.

(* ================================================================== *)
(** ** Further facts about the aggregator *)

Module AggregatorFacts.
Import Categorizer Aggregator.

(** A row that enters some figure of the dashboard. *)
Definition counted (row : Transaction) : bool :=
  (DebitCredit row =? "Debit")%string || (DebitCredit row =? "Credit")%string.

Lemma debits_counted (df : DataFrame) : debits (filter counted df) = debits df.
Proof.
  unfold debits. rewrite filter_filter. apply filter_ext. intros row.
  unfold counted. destruct (DebitCredit row =? "Debit")%string;
    [reflexivity | apply andb_false_r].
Qed.

Lemma credits_counted (df : DataFrame) : credits (filter counted df) = credits df.
Proof.
  unfold credits. rewrite filter_filter. apply filter_ext. intros row.
  unfold counted. destruct (DebitCredit row =? "Credit")%string;
    [now rewrite orb_true_r | apply andb_false_r].
Qed.

(** X18. Only the rows whose direction is exactly "Debit" or exactly
    "Credit" enter a figure: taking every other row out of the frame
    changes none of the tables and totals.  No row is counted on both
    sides. *)
Theorem other_directions_ignored
    (group_sum column_sum : list float -> float) (df : DataFrame) :
  category_totals group_sum (filter counted df) = category_totals group_sum df /\
  spending_over_time group_sum (filter counted df)
  = spending_over_time group_sum df /\
  total_spending column_sum (filter counted df) = total_spending column_sum df /\
  total_payments column_sum (filter counted df) = total_payments column_sum df /\
  transactions (filter counted df) = transactions df /\
  (forall row, In row (debits df) -> ~ In row (credits df)).
Proof.
  unfold category_totals, spending_over_time, total_spending, total_payments,
    transactions.
  rewrite debits_counted, credits_counted. repeat split.
  intros row Hd Hc. unfold debits, credits in *.
  apply filter_In in Hd. apply filter_In in Hc.
  destruct Hd as [_ Hd]. destruct Hc as [_ Hc].
  apply String.eqb_eq in Hd. apply String.eqb_eq in Hc. congruence.
Qed.

(** X19. The expense table of a categorized frame lists only
    "Uncategorized" and names of entries of the ruleset that have
    keywords. *)
Theorem category_totals_keys (group_sum : list float -> float)
    (categories : Ruleset) (df : DataFrame) (c : string) (total : float) :
  In (c, total)
     (category_totals group_sum (categorize_transactions categories df)) ->
  c = "Uncategorized" \/
  exists keywords, In (c, keywords) categories /\ keywords <> [].
Proof.
  unfold category_totals. intros H.
  apply (Permutation_in _ (Permutation_sym (sort_values_desc_Permutation _)))
    in H.
  apply (groupby_sum_In string String.compare string_compare_eq) in H.
  destruct H as [[out [Hout Hc]] _].
  apply debits_In in Hout. destruct Hout as [Hout _].
  apply categorize_In in Hout. destruct Hout as [row [_ ->]].
  simpl in Hc. subst c.
  destruct (assigned df categories row) as [|c l] eqn:E; [now left|].
  right. apply (CategorizerFacts.assigned_valid df categories row).
  rewrite E. apply last_In. discriminate.
Qed.

Lemma category_totals_keys_witness :
  "Food" = "Uncategorized" \/
  exists keywords,
    In ("Food", keywords) [("Uncategorized", []); ("Food", ["starbucks"])] /\
    keywords <> [].
Proof.
  apply (category_totals_keys (fold_right F64.add F64.zero)
           [("Uncategorized", []); ("Food", ["starbucks"])]
           [sample_row 0 "Starbucks Downtown"] "Food"
           (F64.of_decimal 1050 2)).
  vm_compute. now left.
Defined.

Lemma insert_key_length {K : Type} (cmp : K -> K -> comparison) (k : K)
    (keys : list K) :
  List.length (insert_key K cmp k keys) <= S (List.length keys).
Proof.
  induction keys as [|x keys IH]; simpl; [lia|].
  destruct (cmp k x); simpl; lia.
Qed.

Lemma group_keys_length {K : Type} (cmp : K -> K -> comparison)
    (key : Transaction -> K) (df : DataFrame) :
  List.length (group_keys K cmp key df) <= List.length df.
Proof.
  induction df as [|r df IH]; simpl; [lia|].
  pose proof (insert_key_length cmp (key r) (group_keys K cmp key df)). lia.
Qed.

(** X20. The expense tables and the Debit rows.  A frame without Debit
    rows gives empty tables, a total spending of 0.0 and a count of 0;
    every Debit row has its category in the table by category and its
    date in the table by date; and neither table has more entries than
    there are Debit rows. *)
Theorem expense_tables (group_sum column_sum : list float -> float)
    (df : DataFrame) :
  (debits df = [] ->
   category_totals group_sum df = [] /\
   spending_over_time group_sum df = [] /\
   total_spending column_sum df = F64.zero /\ transactions df = 0) /\
  (forall row, In row df -> DebitCredit row = "Debit" ->
     (exists total, In (Category row, total) (category_totals group_sum df)) /\
     (exists total,
        In (Date row, total) (spending_over_time group_sum df))) /\
  List.length (category_totals group_sum df) <= transactions df /\
  List.length (spending_over_time group_sum df) <= transactions df.
Proof.
  split; [|split; [|split]].
  - unfold category_totals, spending_over_time, total_spending, transactions.
    intros ->. repeat split.
  - intros row Hin Hd.
    assert (In row (debits df)) as Hdeb by (apply debits_In; now split).
    split.
    + eexists. unfold category_totals.
      apply (Permutation_in _ (sort_values_desc_Permutation _)).
      apply (groupby_sum_In string String.compare string_compare_eq).
      split; [|reflexivity]. now exists row.
    + eexists. unfold spending_over_time.
      apply (groupby_sum_In Z Z.compare Z_compare_eq).
      split; [|reflexivity]. now exists row.
  - unfold category_totals, transactions.
    rewrite <- (Permutation_length (sort_values_desc_Permutation _)).
    unfold groupby_sum. rewrite length_map. apply group_keys_length.
  - unfold spending_over_time, transactions, groupby_sum.
    rewrite length_map. apply group_keys_length.
Qed.

End AggregatorFacts.

